(** * Warehouse sparepart locator: the request handlers of [server.js]

    A shallow embedding of the three API handlers of [server.js]
    ([GET /api/search], [GET /api/map], [POST /api/admin/rack]) and of the
    two storage helpers [loadDB] and [saveDB], together with the
    properties of the lookup and upsert logic.

    Conventions of the embedding:
    - request fields are untyped JavaScript values ([value]); the handlers
      coerce them the way the source does ([||], [Number], [.trim()]);
    - the document in [data/db.json] is typed ([Dataset]), with [option]
      for every field the source guards with [|| ''] or [|| []];
    - storage is an explicit [World] threaded through a small
      state-and-exception monad [M]; every access is recorded in a trace;
    - strings are sequences of ASCII code units, on which the string
      built-ins below agree with ECMAScript; outside ASCII the
      ECMAScript built-ins map more letters and strip more white space
      than these do, and a property that depends on it says so;
    - the file holds a JSON object with the fields of a dataset, or
      cannot be read: a file whose content parses to another truthy
      value (an array, a number), or whose item names and codes are not
      texts, is outside the model. *)

From Stdlib Require Import ZArith Ascii String List Bool Lia.
From Stdlib Require Import SpecFloat.
From stdpp Require Import base decidable option list strings.

Local Open Scope string_scope.
Local Open Scope list_scope.

(** ** JavaScript numbers and primitive values *)

(** An IEEE 754 binary64 number: 53 bits of precision, [emax = 1024]. *)
Definition number : Type := spec_float.

Definition prec64 : Z := 53.
Definition emax64 : Z := 1024.

Definition NaN : number := S754_nan.
Definition Infinity : number := S754_infinity false.

(** [Number.isNaN]. *)
Definition isNaN (n : number) : bool :=
  match n with
  | S754_nan => true
  | _ => false
  end.

(** [Number.isFinite]: neither [NaN] nor an infinity. *)
Definition isFinite (n : number) : bool :=
  match n with
  | S754_zero _ | S754_finite _ _ _ => true
  | S754_infinity _ | S754_nan => false
  end.

(** The number denoted by an integer literal. *)
Definition num (z : Z) : number := binary_normalize prec64 emax64 z 0 false.

(** The primitive values a parsed request field can hold; [VUndefined] is
    an absent field. *)
Inductive value : Type :=
  | VUndefined
  | VNull
  | VBool (b : bool)
  | VNum (n : number)
  | VStr (s : string).

(** [ToBoolean]: the falsy values are [undefined], [null], [false], both
    zeros, [NaN] and the empty string. *)
Definition truthy (v : value) : bool :=
  match v with
  | VUndefined | VNull => false
  | VBool b => b
  | VNum (S754_zero _) | VNum S754_nan => false
  | VNum _ => true
  | VStr s => negb (String.eqb s EmptyString)
  end.

(** [a || b]. *)
Definition js_or (a b : value) : value := if truthy a then a else b.

(** ** String built-ins on ASCII text *)

(** White space and line terminators of the ASCII range: TAB, LF, VT,
    FF, CR and SPACE. *)
Definition is_ws (c : ascii) : bool :=
  let n := N_of_ascii c in
  ((9 <=? n) && (n <=? 13) || (n =? 32))%N.

Fixpoint trimStart (s : string) : string :=
  match s with
  | String c s' => if is_ws c then trimStart s' else s
  | EmptyString => EmptyString
  end.

Fixpoint trimEnd (s : string) : string :=
  match s with
  | String c s' =>
      match trimEnd s' with
      | EmptyString => if is_ws c then EmptyString else String c EmptyString
      | t => String c t
      end
  | EmptyString => EmptyString
  end.

(** [String.prototype.trim]. *)
Definition trim (s : string) : string := trimEnd (trimStart s).

Definition upper_char (c : ascii) : ascii :=
  let n := N_of_ascii c in
  if ((97 <=? n) && (n <=? 122))%N then ascii_of_N (n - 32) else c.

Definition lower_char (c : ascii) : ascii :=
  let n := N_of_ascii c in
  if ((65 <=? n) && (n <=? 90))%N then ascii_of_N (n + 32) else c.

Fixpoint map_string (f : ascii -> ascii) (s : string) : string :=
  match s with
  | String c s' => String (f c) (map_string f s')
  | EmptyString => EmptyString
  end.

(** [String.prototype.toUpperCase] and [String.prototype.toLowerCase],
    on ASCII text: the letters a-z and A-Z are the only cased ones. *)
Definition toUpperCase : string -> string := map_string upper_char.
Definition toLowerCase : string -> string := map_string lower_char.

Fixpoint startsWith (q s : string) : bool :=
  match q, s with
  | EmptyString, _ => true
  | String a q', String b s' => Ascii.eqb a b && startsWith q' s'
  | String _ _, EmptyString => false
  end.

(** [s.includes(q)]: [q] occurs in [s] at some position. *)
Fixpoint includes (s q : string) : bool :=
  startsWith q s ||
  match s with
  | String _ s' => includes s' q
  | EmptyString => false
  end.

(** ** [Number(v)] *)

Local Open Scope Z_scope.

Definition digit_of (base : Z) (c : ascii) : option Z :=
  let n := Z.of_N (N_of_ascii c) in
  let d := if (48 <=? n) && (n <=? 57) then n - 48
           else if (97 <=? n) && (n <=? 102) then n - 87
           else if (65 <=? n) && (n <=? 70) then n - 55
           else base in
  if d <? base then Some d else None.

(** Reads the longest run of digits of [s] in [base]: the value of
    [acc] followed by the run, the number of digits read, and the rest. *)
Fixpoint read_digits (base : Z) (s : string) (acc : Z) (n : Z) : Z * Z * string :=
  match s with
  | String c s' =>
      match digit_of base c with
      | Some d => read_digits base s' (acc * base + d) (n + 1)
      | None => (acc, n, s)
      end
  | EmptyString => (acc, n, s)
  end.

(** The binary64 number nearest to [(-1)^neg * m * 10^e], ties to even. *)
Definition round_decimal (neg : bool) (m e : Z) : number :=
  match m with
  | Zpos p =>
      if 0 <=? e
      then binary_normalize prec64 emax64 (if neg then - (m * 10 ^ e) else m * 10 ^ e) 0 neg
      else SFdiv prec64 emax64 (S754_finite neg p 0)
                 (S754_finite false (Z.to_pos (10 ^ (- e))) 0)
  | _ => S754_zero neg
  end.

(** [ExponentPart_opt] followed by the end of the string: the exponent. *)
Definition read_exponent (s : string) : option Z :=
  match s with
  | EmptyString => Some 0
  | String c s' =>
      if Ascii.eqb c "e" || Ascii.eqb c "E" then
        let '(neg, s'') :=
          match s' with
          | String "+" t => (false, t)
          | String "-" t => (true, t)
          | _ => (false, s')
          end in
        match read_digits 10 s'' 0 0 with
        | (e, n, EmptyString) => if 0 <? n then Some (if neg then - e else e) else None
        | _ => None
        end
      else None
  end.

(** [StrUnsignedDecimalLiteral]. *)
Definition unsigned_decimal (neg : bool) (s : string) : number :=
  if String.eqb s "Infinity" then S754_infinity neg else
  let '(i, ni, s1) := read_digits 10 s 0 0 in
  let '(m, nf, s2) :=
    match s1 with
    | String "." t => read_digits 10 t i 0
    | _ => (i, 0, s1)
    end in
  if 0 <? ni + nf then
    match read_exponent s2 with
    | Some e => round_decimal neg m (e - nf)
    | None => NaN
    end
  else NaN.

(** [NonDecimalIntegerLiteral] after its two-character prefix. *)
Definition radix_literal (base : Z) (s : string) : number :=
  match read_digits base s 0 0 with
  | (m, n, EmptyString) => if 0 <? n then round_decimal false m 0 else NaN
  | _ => NaN
  end.

(** [StringToNumber]: white space is stripped, the empty string is [+0],
    anything outside the [StringNumericLiteral] grammar is [NaN]. *)
Definition StringToNumber (s : string) : number :=
  match trim s with
  | EmptyString => S754_zero false
  | String "0" (String c t) as lit =>
      if Ascii.eqb c "x" || Ascii.eqb c "X" then radix_literal 16 t
      else if Ascii.eqb c "o" || Ascii.eqb c "O" then radix_literal 8 t
      else if Ascii.eqb c "b" || Ascii.eqb c "B" then radix_literal 2 t
      else unsigned_decimal false lit
  | String "+" t => unsigned_decimal false t
  | String "-" t => unsigned_decimal true t
  | lit => unsigned_decimal false lit
  end.

(** [Number(v)] on a primitive value. *)
Definition Number (v : value) : number :=
  match v with
  | VUndefined => NaN
  | VNull => S754_zero false
  | VBool b => if b then num 1 else S754_zero false
  | VNum n => n
  | VStr s => StringToNumber s
  end.

Local Close Scope Z_scope.

(** ** The dataset of [data/db.json] *)

Module Item.
(** An entry of [db.items]. [name] and [code] are texts and may be
    absent; [rackId] is [None] when it is [null] or absent. *)
Record t : Type := mk {
  id : string;
  name : option string;
  code : option string;
  rackId : option string
}.
End Item.

Module Rack.
(** An entry of [db.racks]. The coordinates are whatever the document
    holds; the admin route stores numbers. *)
Record t : Type := mk {
  id : string;
  code : string;
  x : value;
  y : value
}.

Definition set_x (v : value) (r : t) : t := mk (id r) (code r) v (y r).
Definition set_y (v : value) (r : t) : t := mk (id r) (code r) (x r) v.
End Rack.

Record Dataset : Type := mkDataset {
  company : string;
  warehouse : string;
  items : option (list Item.t);
  racks : option (list Rack.t)
}.

Definition set_racks (rs : list Rack.t) (db : Dataset) : Dataset :=
  mkDataset (company db) (warehouse db) (items db) (Some rs).

#[global] Instance value_eq_dec : EqDecision value.
Proof. unfold EqDecision, Decision. repeat decide equality. Defined.

#[global] Instance Item_eq_dec : EqDecision Item.t.
Proof. solve_decision. Defined.

#[global] Instance Rack_eq_dec : EqDecision Rack.t.
Proof. solve_decision. Defined.

(** ** What [JSON.stringify] followed by [JSON.parse] returns *)

(** [JSON.stringify] writes [null] for [NaN] and the infinities and [0]
    for both zeros; an [undefined] property is left out, and is
    [undefined] again when the document is read back. *)
Definition json_value (v : value) : value :=
  match v with
  | VNum (S754_zero _) => VNum (S754_zero false)
  | VNum (S754_finite s m e) => VNum (S754_finite s m e)
  | VNum _ => VNull
  | _ => v
  end.

Definition json_rack (r : Rack.t) : Rack.t :=
  Rack.mk (Rack.id r) (Rack.code r) (json_value (Rack.x r)) (json_value (Rack.y r)).

Definition json_dataset (db : Dataset) : Dataset :=
  mkDataset (company db) (warehouse db) (items db) (fmap (M := list) json_rack <$> racks db).

(** ** Storage and the handler monad *)

Inductive StorageOp : Type :=
  | OpLoad
  | OpSave (db : Dataset).

(** The state of the service's surroundings: [disk] is the parsed
    content of [data/db.json], a dataset object, or [None] when the
    file is missing, unreadable, not JSON or a falsy value; [writable]
    tells whether [fs.writeFileSync] succeeds (a failed write leaves
    the file as it was); [trace] lists the storage accesses made so
    far, oldest first. *)
Record World : Type := mkWorld {
  disk : option Dataset;
  writable : bool;
  trace : list StorageOp
}.

Definition log (op : StorageOp) (w : World) : World :=
  mkWorld (disk w) (writable w) (trace w ++ [op]).

Definition write (db : Dataset) (w : World) : World :=
  mkWorld (Some db) (writable w) (trace w).

(** The outcome of running a handler: it answers, or a [TypeError]
    escapes it (Express answers that request with its default error
    page). *)
Inductive outcome (A : Type) : Type :=
  | Done (a : A)
  | TypeError.
Arguments Done {A} a.
Arguments TypeError {A}.

Definition M (A : Type) : Type := World -> outcome A * World.

Definition ret {A} (a : A) : M A := fun w => (Done a, w).

(** An outcome computed without touching the world. *)
Definition lift {A} (o : outcome A) : M A := fun w => (o, w).

Definition bind {A B} (m : M A) (k : A -> M B) : M B :=
  fun w =>
    match m w with
    | (Done a, w') => k a w'
    | (TypeError, w') => (TypeError, w')
    end.

Declare Scope handler_scope.
Delimit Scope handler_scope with handler.
Notation "x <- m ;; k" := (bind m (fun x => k))
  (at level 100, m at next level, right associativity) : handler_scope.
Local Open Scope handler_scope.

(** [loadDB]: the parsed document, or [null] when reading or parsing
    fails. *)
Definition loadDB : M (option Dataset) :=
  fun w => (Done (disk w), log OpLoad w).

(** [saveDB]: overwrites the file with [JSON.stringify(db, null, 2)];
    [true] when the write went through. *)
Definition saveDB (db : Dataset) : M bool :=
  fun w =>
    if writable w
    then (Done true, write (json_dataset db) (log (OpSave db) w))
    else (Done false, log (OpSave db) w).

(** ** Responses *)

(** An entry of the [results] array of a search. *)
Record Result : Type := mkResult {
  res_id : string;
  res_name : option string;
  res_code : option string;
  res_rackId : option string;
  rackCode : string;
  rackX : value;
  rackY : value
}.

(** The bodies the handlers pass to [res.json], one constructor per
    shape. *)
Inductive Response : Type :=
  | QueryEmpty
      (* { ok: true, results: [], message: "Query kosong" } *)
  | DbUnreadable
      (* status 500, { ok: false, message: "DB tidak bisa dibaca" } *)
  | SearchOk (query : string) (total : nat) (results : list Result)
      (* { ok: true, query, total, results } *)
  | MapOk (company warehouse mapFile : string) (racks : list Rack.t)
      (* { ok: true, company, warehouse, mapFile, racks } *)
  | InvalidData
      (* status 400, { ok: false, message: "Data tidak valid. ..." } *)
  | SaveFailed
      (* status 500, { ok: false, message: "Gagal menyimpan DB" } *)
  | RackSaved (message : string) (rack : Rack.t).
      (* { ok: true, message, rack } *)

Definition status (r : Response) : nat :=
  match r with
  | DbUnreadable | SaveFailed => 500
  | InvalidData => 400
  | _ => 200
  end.

Definition message (r : Response) : option string :=
  match r with
  | QueryEmpty => Some "Query kosong"
  | DbUnreadable => Some "DB tidak bisa dibaca"
  | InvalidData => Some "Data tidak valid. Pastikan code, x, y ada."
  | SaveFailed => Some "Gagal menyimpan DB"
  | RackSaved m _ => Some m
  | SearchOk _ _ _ | MapOk _ _ _ _ => None
  end.

(** The [results] array of a response, for the shapes that have one. *)
Definition results_of (r : Response) : option (list Result) :=
  match r with
  | QueryEmpty => Some []
  | SearchOk _ _ rs => Some rs
  | _ => None
  end.

(** ** [GET /api/search] *)

(** [(v || '').trim()]: a truthy value that is not a string has no
    [trim] method. *)
Definition trimmed (v : value) : outcome string :=
  match js_or v (VStr EmptyString) with
  | VStr s => Done (trim s)
  | _ => TypeError
  end.

(** The [filter] callback. *)
Definition item_matches (q : string) (it : Item.t) : bool :=
  let name := toLowerCase (default EmptyString (Item.name it)) in
  let code := toLowerCase (default EmptyString (Item.code it)) in
  includes name q || includes code q.

(** [racks.find((r) => r.id === it.rackId)]. *)
Definition find_rack (racks : list Rack.t) (rackId : option string) : option Rack.t :=
  snd <$> list_find (fun r => Some (Rack.id r) = rackId) racks.

(** The [map] callback. *)
Definition to_result (racks : list Rack.t) (it : Item.t) : Result :=
  let rack := find_rack racks (Item.rackId it) in
  mkResult (Item.id it) (Item.name it) (Item.code it) (Item.rackId it)
    (match rack with Some r => Rack.code r | None => "-" end)
    (match rack with Some r => Rack.x r | None => VNull end)
    (match rack with Some r => Rack.y r | None => VNull end).

Definition search_results (q : string) (db : Dataset) : list Result :=
  let items := default [] (items db) in
  let racks := default [] (racks db) in
  to_result racks <$> List.filter (item_matches q) items.

(** The handler, applied to [req.query.q]. *)
Definition get_api_search (query_q : value) : M Response :=
  s <- lift (trimmed query_q) ;;
  let q := toLowerCase s in
  if String.eqb q EmptyString then ret QueryEmpty else
  db <- loadDB ;;
  match db with
  | None => ret DbUnreadable
  | Some db =>
      let results := search_results q db in
      ret (SearchOk q (length results) results)
  end.

(** ** [GET /api/map] *)

Definition get_api_map : M Response :=
  db <- loadDB ;;
  match db with
  | None => ret DbUnreadable
  | Some db =>
      ret (MapOk (company db) (warehouse db) "/maps/warehouse.svg"
                 (default [] (racks db)))
  end.

(** ** [POST /api/admin/rack] *)

(** The fields of [req.body] the handler reads. *)
Record Body : Type := mkBody {
  body_code : value;
  body_x : value;
  body_y : value
}.

(** Find the rack by its code, then update its coordinates in place or
    push a new rack: the racks afterwards and the rack that is
    answered. *)
Definition upsert (code : string) (x y : number) (racks : list Rack.t)
  : list Rack.t * Rack.t :=
  match list_find (fun r => Rack.code r = code) racks with
  | None =>
      let rack := Rack.mk ("R-" ++ code) code (VNum x) (VNum y) in
      (racks ++ [rack], rack)
  | Some (i, r) =>
      let rack := Rack.set_y (VNum y) (Rack.set_x (VNum x) r) in
      (<[i := rack]> racks, rack)
  end.

Definition saved_message (code : string) : string :=
  "Rack " ++ code ++ " berhasil disimpan".

(** The handler, applied to [req.body]. *)
Definition post_api_admin_rack (body : Body) : M Response :=
  s <- lift (trimmed (body_code body)) ;;
  let code := toUpperCase s in
  let x := Number (body_x body) in
  let y := Number (body_y body) in
  if String.eqb code EmptyString || isNaN x || isNaN y then ret InvalidData else
  db <- loadDB ;;
  match db with
  | None => ret DbUnreadable
  | Some db =>
      let '(racks', rack) := upsert code x y (default [] (racks db)) in
      ok <- saveDB (set_racks racks' db) ;;
      if ok then ret (RackSaved (saved_message code) rack)
      else ret SaveFailed
  end.

(** * Vocabulary of the properties *)

(** [q] occurs in [s]. *)
Definition Substring (q s : string) : Prop :=
  exists pre suf : string, s = (pre ++ q ++ suf)%string.

(** [s] is made of white space only. *)
Fixpoint blank (s : string) : bool :=
  match s with
  | String c s' => is_ws c && blank s'
  | EmptyString => true
  end.

(** The matching rule of the search, stated on substrings: the query
    occurs in the lower-cased name or in the lower-cased code, an absent
    field counting as the empty string. *)
Definition Matches (q : string) (it : Item.t) : Prop :=
  Substring q (toLowerCase (default EmptyString (Item.name it))) \/
  Substring q (toLowerCase (default EmptyString (Item.code it))).

(** The codes of the racks, in order. *)
Definition codes (rs : list Rack.t) : list string := Rack.code <$> rs.

(** The racks that carry the code [c]. *)
Definition with_code (c : string) (rs : list Rack.t) : list Rack.t :=
  filter (fun r => Rack.code r = c) rs.

(** ** Sample documents and requests *)

Definition rack_A01 : Rack.t := Rack.mk "R-A01" "A01" (VNum (num 10)) (VNum (num 20)).

(** One item on one rack. *)
Definition db_sample : Dataset :=
  mkDataset "PT Granitoguna Building Ceramics" "Gudang Sparepart"
    (Some [Item.mk "I1" (Some "Bolt M6") (Some "BLT6") (Some "R-A01")])
    (Some [rack_A01]).

(** A second item that points to a rack that does not exist, and a
    third without a name. *)
Definition item_dangling : Item.t :=
  Item.mk "I2" (Some "Mur M6") (Some "NUT6") (Some "R-999").

Definition item_nameless : Item.t :=
  Item.mk "I3" None (Some "BLT8") None.

Definition db_dangling : Dataset :=
  mkDataset "PT Granitoguna Building Ceramics" "Gudang Sparepart"
    (Some [Item.mk "I1" (Some "Bolt M6") (Some "BLT6") (Some "R-A01");
           item_dangling; item_nameless])
    (Some [rack_A01]).

(** A document with no [racks] array, whose only item has no name. *)
Definition db_sparse : Dataset :=
  mkDataset "PT Granitoguna Building Ceramics" "Gudang Sparepart"
    (Some [item_nameless]) None.

(** A document whose only rack has a lower-case code. *)
Definition rack_a01_lower : Rack.t :=
  Rack.mk "R-a01" "a01" (VNum (num 10)) (VNum (num 20)).

Definition db_lowercase : Dataset :=
  mkDataset "PT Granitoguna Building Ceramics" "Gudang Sparepart"
    (Some []) (Some [rack_a01_lower]).

(** A document in which two racks share the code ["A01"]. *)
Definition rack_A01_again : Rack.t :=
  Rack.mk "R-A01-2" "A01" (VNum (num 30)) (VNum (num 40)).

Definition db_duplicates : Dataset :=
  mkDataset "PT Granitoguna Building Ceramics" "Gudang Sparepart"
    (Some []) (Some [rack_A01; rack_A01_again]).

(** A healthy, writable file holding [db], nothing accessed yet. *)
Definition world_of (db : Dataset) : World := mkWorld (Some db) true [].

(** A missing or unparsable file. *)
Definition world_unreadable : World := mkWorld None true [].

Definition body_a01 : Body := mkBody (VStr "a01") (VNum (num 99)) (VNum (num 5)).
Definition body_B02 : Body := mkBody (VStr "B02") (VNum (num 5)) (VNum (num 5)).
Definition body_A01_once : Body := mkBody (VStr "A01") (VNum (num 1)) (VNum (num 1)).
Definition body_infinity : Body := mkBody (VStr "A01") (VStr "Infinity") (VNum (num 20)).
Definition body_no_code : Body := mkBody (VStr EmptyString) (VNum (num 1)) (VNum (num 1)).
Definition body_abc : Body := mkBody (VStr "A01") (VStr "abc") (VNum (num 1)).
Definition body_no_y : Body := mkBody (VStr "A01") (VNum (num 1)) VUndefined.

(** * Properties *)

(** ** Substrings *)

Lemma startsWith_spec (q s : string) :
  startsWith q s = true <-> exists suf : string, s = (q ++ suf)%string.
Proof.
  revert s. induction q as [|a q IH]; intros s; simpl.
  - split; [intros _; exists s; reflexivity | reflexivity].
  - destruct s as [|b s].
    + split; [discriminate | intros [suf H]; discriminate].
    + rewrite andb_true_iff, Ascii.eqb_eq, IH. split.
      * intros [-> [suf ->]]. exists suf. reflexivity.
      * intros [suf H]. injection H as -> ->. eauto.
Qed.

Lemma includes_spec (s q : string) :
  includes s q = true <-> Substring q s.
Proof.
  unfold Substring. induction s as [|c s IH].
  - simpl. rewrite orb_false_r, startsWith_spec. split.
    + intros [suf H]. exists EmptyString, suf. exact H.
    + intros [[|c pre] [suf H]]; [eauto | discriminate].
  - cbn [includes]. rewrite orb_true_iff, startsWith_spec, IH. split.
    + intros [[suf H] | (pre & suf & H)].
      * exists EmptyString, suf. exact H.
      * exists (String c pre), suf. simpl. rewrite H. reflexivity.
    + intros [[|c' pre] [suf H]].
      * left. exists suf. exact H.
      * right. simpl in H. injection H as _ H. eauto.
Qed.

Lemma includes_empty (q : string) : q <> EmptyString -> includes EmptyString q = false.
Proof. destruct q; [congruence | reflexivity]. Qed.

Lemma item_matches_spec (q : string) (it : Item.t) :
  item_matches q it = true <-> Matches q it.
Proof.
  unfold item_matches, Matches.
  rewrite orb_true_iff, !includes_spec. reflexivity.
Qed.

#[global] Instance Matches_dec (q : string) (it : Item.t) : Decision (Matches q it).
Proof.
  destruct (item_matches q it) eqn:E.
  - left. apply item_matches_spec, E.
  - right. rewrite <- item_matches_spec, E. discriminate.
Defined.

Lemma filter_item_matches (q : string) (l : list Item.t) :
  List.filter (item_matches q) l = filter (Matches q) l.
Proof.
  induction l as [|it l IH]; [reflexivity|].
  simpl. rewrite filter_cons, IH.
  destruct (item_matches q it) eqn:E; destruct (decide (Matches q it)) as [H|H].
  - reflexivity.
  - apply item_matches_spec in E. contradiction.
  - apply item_matches_spec in H. congruence.
  - reflexivity.
Qed.

(** ** Running the handlers *)

Lemma bind_lift_Done {A B} (a : A) (k : A -> M B) (w : World) :
  bind (lift (Done a)) k w = k a w.
Proof. reflexivity. Qed.

Lemma bind_lift_TypeError {A B} (k : A -> M B) (w : World) :
  bind (lift (@TypeError A)) k w = (TypeError, w).
Proof. reflexivity. Qed.

Lemma trimmed_absent : trimmed VUndefined = Done EmptyString.
Proof. reflexivity. Qed.

Lemma trimStart_blank (s : string) : blank s = true -> trimStart s = EmptyString.
Proof.
  induction s as [|c s IH]; [reflexivity|].
  simpl. intros H. apply andb_true_iff in H as [Hc Hs].
  rewrite Hc. exact (IH Hs).
Qed.

(** A string of white space trims to the empty string. *)
Lemma trimmed_blank (s : string) : blank s = true -> trimmed (VStr s) = Done EmptyString.
Proof.
  intros H. unfold trimmed, js_or.
  assert (E : Done (trim s) = Done EmptyString).
  { unfold trim. rewrite (trimStart_blank s H). reflexivity. }
  destruct (truthy (VStr s)) eqn:T; [exact E|].
  destruct s; [reflexivity | discriminate].
Qed.

Lemma toLowerCase_empty (s : string) : toLowerCase s = EmptyString <-> s = EmptyString.
Proof. destruct s; simpl; split; intros H; [reflexivity|reflexivity|discriminate|discriminate]. Qed.

Lemma toUpperCase_empty (s : string) : toUpperCase s = EmptyString <-> s = EmptyString.
Proof. destruct s; simpl; split; intros H; [reflexivity|reflexivity|discriminate|discriminate]. Qed.

(** A search with a non-empty normalised query, on a readable document. *)
Lemma get_api_search_run (query_q : value) (s : string) (w : World) (db : Dataset) :
  trimmed query_q = Done s ->
  toLowerCase s <> EmptyString ->
  disk w = Some db ->
  get_api_search query_q w =
    (Done (SearchOk (toLowerCase s)
             (length (search_results (toLowerCase s) db))
             (search_results (toLowerCase s) db)),
     log OpLoad w).
Proof.
  intros Hq Hne Hdb. unfold get_api_search.
  rewrite Hq, bind_lift_Done. cbv zeta.
  destruct (String.eqb (toLowerCase s) EmptyString) eqn:E.
  - apply String.eqb_eq in E. contradiction.
  - unfold bind, loadDB, ret. rewrite Hdb. reflexivity.
Qed.

(** ** Search *)

(** C3. For a non-empty normalised query [q] on a readable document, the
    search answers with [q] echoed, the number of results, and the
    results themselves: the display records of exactly the items whose
    lower-cased name or lower-cased code contains [q], in the order of
    the document. *)
Theorem search_sound_complete_ordered
    (query_q : value) (s : string) (w : World) (db : Dataset) :
  trimmed query_q = Done s ->
  toLowerCase s <> EmptyString ->
  disk w = Some db ->
  let q := toLowerCase s in
  let its := default [] (items db) in
  let kept := filter (Matches q) its in
  let results := to_result (default [] (racks db)) <$> kept in
  get_api_search query_q w = (Done (SearchOk q (length results) results), log OpLoad w)
  /\ (forall it, it ∈ kept <-> it ∈ its /\ Matches q it)
  /\ kept `sublist_of` its.
Proof.
  intros Hq Hne Hdb q its kept results. split; [|split].
  - rewrite (get_api_search_run _ _ _ _ Hq Hne Hdb).
    unfold search_results. rewrite filter_item_matches. reflexivity.
  - intros it. unfold kept. rewrite list_elem_of_filter. tauto.
  - apply sublist_filter.
Qed.

Lemma find_rack_none (racks : list Rack.t) (rackId : option string) :
  (forall r, r ∈ racks -> Some (Rack.id r) <> rackId) ->
  find_rack racks rackId = None.
Proof.
  intros H. unfold find_rack.
  destruct (list_find _ racks) as [[i r]|] eqn:E; [|reflexivity].
  apply list_find_Some in E as (Hi & Hr & _).
  exfalso. apply (H r); [|exact Hr].
  apply list_elem_of_lookup. eauto.
Qed.

(** C6. A matching item whose [rackId] is the id of no rack is still
    among the results, with rack code ["-"] and [null] coordinates; the
    search answers as usual. *)
Theorem search_dangling_rack
    (query_q : value) (s : string) (w : World) (db : Dataset) (it : Item.t) :
  trimmed query_q = Done s ->
  toLowerCase s <> EmptyString ->
  disk w = Some db ->
  it ∈ default [] (items db) ->
  Matches (toLowerCase s) it ->
  (forall r, r ∈ default [] (racks db) -> Some (Rack.id r) <> Item.rackId it) ->
  exists results,
    get_api_search query_q w =
      (Done (SearchOk (toLowerCase s) (length results) results), log OpLoad w)
    /\ mkResult (Item.id it) (Item.name it) (Item.code it) (Item.rackId it)
         "-" VNull VNull ∈ results.
Proof.
  intros Hq Hne Hdb Hin Hm Hdangling.
  exists (search_results (toLowerCase s) db). split.
  - apply get_api_search_run; assumption.
  - unfold search_results. rewrite filter_item_matches.
    apply list_elem_of_fmap. exists it. split.
    + unfold to_result. rewrite (find_rack_none _ _ Hdangling). reflexivity.
    + apply list_elem_of_filter. split; assumption.
Qed.

(** C7. A query that is absent, empty or only white space is answered
    with the empty result list and the message ["Query kosong"]; the
    world is left exactly as it was, so nothing is loaded, whatever the
    file holds. *)
Theorem search_empty_query (query_q : value) (w : World) :
  trimmed query_q = Done EmptyString ->
  get_api_search query_q w = (Done QueryEmpty, w)
  /\ results_of QueryEmpty = Some []
  /\ message QueryEmpty = Some "Query kosong"
  /\ status QueryEmpty = 200.
Proof.
  intros Hq. unfold get_api_search. rewrite Hq, bind_lift_Done.
  repeat split.
Qed.

Lemma Substring_of_empty (q : string) : Substring q EmptyString -> q = EmptyString.
Proof.
  intros (pre & suf & H). destruct pre; [|discriminate].
  destruct q; [reflexivity | discriminate].
Qed.

(** A display record determines its item. *)
Lemma to_result_inj (rs : list Rack.t) (it it' : Item.t) :
  to_result rs it = to_result rs it' -> it = it'.
Proof.
  destruct it, it'. unfold to_result. cbn [Item.id Item.name Item.code Item.rackId].
  intros H. injection H as -> -> -> ->. reflexivity.
Qed.

(** C9. The search answers on every readable document, whichever of the
    guarded fields are missing. Without an [items] array there are no
    results; without a [racks] array every result has rack code ["-"]
    and [null] coordinates; and an item without a name is among the
    results exactly when the query occurs in its lower-cased code (the
    absent name counts as the empty string), and likewise an item
    without a code through its name. *)
Theorem search_total_on_missing_fields
    (query_q : value) (s : string) (w : World) (db : Dataset) :
  trimmed query_q = Done s ->
  toLowerCase s <> EmptyString ->
  disk w = Some db ->
  let q := toLowerCase s in
  let its := default [] (items db) in
  let rs := default [] (racks db) in
  exists results,
    get_api_search query_q w
      = (Done (SearchOk q (length results) results), log OpLoad w)
    /\ status (SearchOk q (length results) results) = 200
    /\ (items db = None -> results = [])
    /\ (racks db = None ->
        forall res, res ∈ results ->
          rackCode res = "-" /\ rackX res = VNull /\ rackY res = VNull)
    /\ (forall it, it ∈ its -> Item.name it = None ->
        (to_result rs it ∈ results
         <-> Substring q (toLowerCase (default EmptyString (Item.code it)))))
    /\ (forall it, it ∈ its -> Item.code it = None ->
        (to_result rs it ∈ results
         <-> Substring q (toLowerCase (default EmptyString (Item.name it))))).
Proof.
  intros Hq Hne Hdb q its rs.
  exists (search_results q db).
  split; [apply get_api_search_run; assumption|]. split; [reflexivity|].
  assert (Hmem : forall it, it ∈ its ->
            (to_result rs it ∈ search_results q db <-> Matches q it)).
  { intros it Hin. unfold search_results. fold its rs.
    rewrite filter_item_matches, list_elem_of_fmap. split.
    - intros (it' & E & Hin'). apply to_result_inj in E. subst it'.
      apply list_elem_of_filter in Hin' as [Hm _]. exact Hm.
    - intros Hm. exists it. split; [reflexivity|].
      apply list_elem_of_filter. auto. }
  split; [|split; [|split]].
  - intros Hnone. unfold search_results. rewrite Hnone. reflexivity.
  - intros Hnone res Hres. unfold search_results in Hres. rewrite Hnone in Hres.
    apply list_elem_of_fmap in Hres as (it & -> & _). repeat split.
  - intros it Hin Hname. rewrite (Hmem it Hin). unfold Matches. rewrite Hname.
    split; [|auto]. intros [H|H]; [|exact H].
    apply Substring_of_empty in H. contradiction.
  - intros it Hin Hcd. rewrite (Hmem it Hin). unfold Matches. rewrite Hcd.
    split; [|auto]. intros [H|H]; [exact H|].
    apply Substring_of_empty in H. contradiction.
Qed.

(** C10. The two read-only routes leave the file as it was and make no
    storage access other than one load; the admin route is the one
    that writes. *)
Theorem read_only_routes_do_not_write :
  (forall query_q w,
      let w' := snd (get_api_search query_q w) in
      disk w' = disk w /\ (trace w' = trace w \/ trace w' = trace w ++ [OpLoad]))
  /\ (forall w,
      let w' := snd (get_api_map w) in
      disk w' = disk w /\ trace w' = trace w ++ [OpLoad])
  /\ (exists body w, disk (snd (post_api_admin_rack body w)) <> disk w).
Proof.
  split; [|split].
  - intros query_q w. cbv zeta. unfold get_api_search.
    destruct (trimmed query_q) as [s|].
    + rewrite bind_lift_Done. cbv zeta.
      destruct (String.eqb (toLowerCase s) EmptyString).
      * simpl. auto.
      * unfold bind, loadDB, ret. destruct (disk w) eqn:E; simpl; auto.
    + rewrite bind_lift_TypeError. simpl. auto.
  - intros w. cbv zeta. unfold get_api_map, bind, loadDB, ret.
    destruct (disk w) eqn:E; simpl; auto.
  - exists (mkBody (VStr "A01") (VNum (num 1)) (VNum (num 2))).
    exists (mkWorld (Some (mkDataset EmptyString EmptyString None None)) true []).
    vm_compute. discriminate.
Qed.

(** ** Admin rack upsert: validation *)

Section Validation.
Variables (body : Body) (w : World) (s : string).
Hypothesis Hcode : trimmed (body_code body) = Done s.

Let code := toUpperCase s.
Let x := Number (body_x body).
Let y := Number (body_y body).

Lemma post_api_admin_rack_invalid :
  code = EmptyString \/ isNaN x = true \/ isNaN y = true ->
  post_api_admin_rack body w = (Done InvalidData, w).
Proof.
  intros H. unfold post_api_admin_rack.
  rewrite Hcode, bind_lift_Done. cbv zeta. fold code x y.
  assert (E : String.eqb code EmptyString || isNaN x || isNaN y = true).
  { rewrite !orb_true_iff, String.eqb_eq. tauto. }
  rewrite E. reflexivity.
Qed.

Lemma post_api_admin_rack_valid (db : Dataset) :
  code <> EmptyString -> isNaN x = false -> isNaN y = false ->
  disk w = Some db ->
  let ur := upsert code x y (default [] (racks db)) in
  let db' := set_racks (fst ur) db in
  let w1 := log (OpSave db') (log OpLoad w) in
  post_api_admin_rack body w =
    if writable w
    then (Done (RackSaved (saved_message code) (snd ur)), write (json_dataset db') w1)
    else (Done SaveFailed, w1).
Proof.
  intros Hc Hx Hy Hdb. cbv zeta. unfold post_api_admin_rack.
  rewrite Hcode, bind_lift_Done. cbv zeta. fold code x y.
  apply String.eqb_neq in Hc. rewrite Hc, Hx, Hy. cbn [orb].
  unfold bind at 1. unfold loadDB. rewrite Hdb.
  destruct (upsert code x y (default [] (racks db))) as [racks' rack].
  unfold bind, saveDB, ret. cbn [fst snd writable log].
  destruct (writable w); reflexivity.
Qed.

Lemma post_api_admin_rack_unreadable :
  code <> EmptyString -> isNaN x = false -> isNaN y = false ->
  disk w = None ->
  post_api_admin_rack body w = (Done DbUnreadable, log OpLoad w).
Proof.
  intros Hc Hx Hy Hdb. unfold post_api_admin_rack.
  rewrite Hcode, bind_lift_Done. cbv zeta. fold code x y.
  apply String.eqb_neq in Hc. rewrite Hc, Hx, Hy. cbn [orb].
  unfold bind, loadDB, ret. rewrite Hdb. reflexivity.
Qed.
End Validation.

(** C1, as the code has it. The upsert answers [InvalidData] exactly
    when the trimmed, upper-cased code is empty or [x] or [y] converts
    to [NaN]; it then leaves the world as it was: no load, no save, the
    file untouched. Otherwise validation passes and the first thing the
    handler does is load the document. An input that converts to an
    infinity is not [NaN] and passes. *)
Theorem upsert_validation (body : Body) (w : World) (s : string) :
  trimmed (body_code body) = Done s ->
  let code := toUpperCase s in
  let x := Number (body_x body) in
  let y := Number (body_y body) in
  (code = EmptyString \/ isNaN x = true \/ isNaN y = true ->
     post_api_admin_rack body w = (Done InvalidData, w))
  /\ (~ (code = EmptyString \/ isNaN x = true \/ isNaN y = true) ->
     exists r w' t,
       post_api_admin_rack body w = (Done r, w')
       /\ r <> InvalidData
       /\ trace w' = trace w ++ OpLoad :: t).
Proof.
  intros Hcode code x y. split.
  - apply post_api_admin_rack_invalid, Hcode.
  - intros Hok.
    assert (Hc : code <> EmptyString) by tauto.
    assert (Hx : isNaN x = false) by (destruct (isNaN x); tauto).
    assert (Hy : isNaN y = false) by (destruct (isNaN y); tauto).
    destruct (disk w) as [db|] eqn:Hdb.
    + pose proof (post_api_admin_rack_valid body w s Hcode db Hc Hx Hy Hdb) as H.
      cbv zeta in H. rewrite H.
      destruct (writable w); do 3 eexists; (split; [reflexivity|]); split;
        try discriminate; simpl; rewrite <- app_assoc; reflexivity.
    + rewrite (post_api_admin_rack_unreadable body w s Hcode Hc Hx Hy Hdb).
      exists DbUnreadable, (log OpLoad w), []. repeat split. discriminate.
Qed.

(** ** Admin rack upsert: find-or-create *)

Section Upsert.
Variables (c : string) (x y : number).

Let fresh : Rack.t := Rack.mk ("R-" ++ c) c (VNum x) (VNum y).
Let moved (r : Rack.t) : Rack.t := Rack.mk (Rack.id r) (Rack.code r) (VNum x) (VNum y).

Lemma upsert_new (rs : list Rack.t) :
  Forall (fun r => Rack.code r <> c) rs ->
  upsert c x y rs = (rs ++ [fresh], fresh).
Proof.
  intros H. unfold upsert.
  apply (list_find_None (fun r => Rack.code r = c)) in H. rewrite H. reflexivity.
Qed.

Lemma upsert_found (rs : list Rack.t) (i : nat) (r : Rack.t) :
  rs !! i = Some r ->
  Rack.code r = c ->
  (forall j r0, rs !! j = Some r0 -> j < i -> Rack.code r0 <> c) ->
  upsert c x y rs = (<[i := moved r]> rs, moved r).
Proof.
  intros Hi Hr Hfirst. unfold upsert.
  assert (E : list_find (fun r => Rack.code r = c) rs = Some (i, r)).
  { apply list_find_Some. auto. }
  rewrite E. reflexivity.
Qed.

(** Either branch, by cases on the search for the code. *)
Lemma upsert_cases (rs : list Rack.t) :
  (Forall (fun r => Rack.code r <> c) rs /\ upsert c x y rs = (rs ++ [fresh], fresh))
  \/ (exists i r,
        rs !! i = Some r /\ Rack.code r = c
        /\ Forall (fun r0 => Rack.code r0 <> c) (take i rs)
        /\ upsert c x y rs = (<[i := moved r]> rs, moved r)).
Proof.
  destruct (list_find (fun r => Rack.code r = c) rs) as [[i r]|] eqn:E.
  - right. exists i, r. apply list_find_Some in E as (Hi & Hr & Hfirst).
    split; [exact Hi|]. split; [exact Hr|]. split.
    + apply Forall_forall. intros r0 Hin.
      apply list_elem_of_lookup in Hin as [j Hj].
      apply lookup_take_Some in Hj as [Hj Hlt]. eauto.
    + apply upsert_found; assumption.
  - left. apply list_find_None in E. split; [exact E|]. apply upsert_new, E.
Qed.

Lemma with_code_none (rs : list Rack.t) :
  Forall (fun r => Rack.code r <> c) rs -> with_code c rs = [].
Proof.
  unfold with_code. induction 1 as [|r rs Hr _ IH]; [reflexivity|].
  rewrite filter_cons_False by exact Hr. exact IH.
Qed.

(** The codes are those of before, with [c] added at the end when it
    is new. *)
Lemma upsert_codes (rs : list Rack.t) :
  codes (fst (upsert c x y rs)) = codes rs
  \/ ((c ∉ codes rs) /\ codes (fst (upsert c x y rs)) = codes rs ++ [c]).
Proof.
  destruct (upsert_cases rs) as [[Hnone ->] | (i & r & Hi & Hr & _ & ->)].
  - right. split.
    + unfold codes. intros Hin. apply list_elem_of_fmap in Hin as (r & -> & Hin).
      rewrite Forall_forall in Hnone. apply (Hnone r Hin). reflexivity.
    + unfold codes. cbn [fst]. rewrite fmap_app. reflexivity.
  - left. unfold codes. cbn [fst]. rewrite list_fmap_insert.
    apply list_insert_id. rewrite list_lookup_fmap, Hi. reflexivity.
Qed.

(** When at most one rack carries [c], exactly one does afterwards:
    the rack that is answered. *)
Lemma upsert_with_code (rs : list Rack.t) :
  length (with_code c rs) <= 1 ->
  with_code c (fst (upsert c x y rs)) = [snd (upsert c x y rs)]
  /\ Rack.code (snd (upsert c x y rs)) = c
  /\ Rack.x (snd (upsert c x y rs)) = VNum x
  /\ Rack.y (snd (upsert c x y rs)) = VNum y.
Proof.
  intros Hle.
  destruct (upsert_cases rs) as [[Hnone ->] | (i & r & Hi & Hr & Hbefore & ->)];
    cbn [fst snd].
  - split; [|repeat split].
    unfold with_code. rewrite filter_app.
    fold (with_code c rs). rewrite (with_code_none _ Hnone).
    rewrite filter_cons_True by reflexivity. reflexivity.
  - split; [|repeat split; exact Hr].
    assert (Hlt : i < length rs) by (eapply lookup_lt_Some; exact Hi).
    rewrite insert_take_drop by exact Hlt.
    rewrite <- (take_drop_middle rs i r Hi) in Hle.
    unfold with_code in *. rewrite filter_app in Hle |- *.
    fold (with_code c (take i rs)) in Hle |- *.
    rewrite (with_code_none _ Hbefore) in Hle |- *.
    rewrite filter_cons_True in Hle by exact Hr.
    rewrite filter_cons_True by exact Hr.
    cbn [app length] in Hle |- *.
    destruct (filter _ (drop (S i) rs)); [reflexivity | cbn [length] in Hle; lia].
Qed.
End Upsert.

Lemma json_value_idemp (v : value) : json_value (json_value v) = json_value v.
Proof. destruct v as [| | |[]|]; reflexivity. Qed.

Lemma json_rack_idemp (r : Rack.t) : json_rack (json_rack r) = json_rack r.
Proof. unfold json_rack. cbn. rewrite !json_value_idemp. reflexivity. Qed.

Lemma json_dataset_set_racks (rs : list Rack.t) (db : Dataset) :
  json_dataset (set_racks rs db)
  = mkDataset (company db) (warehouse db) (items db) (Some (json_rack <$> rs)).
Proof. reflexivity. Qed.

Lemma codes_json (rs : list Rack.t) : codes (json_rack <$> rs) = codes rs.
Proof. unfold codes. rewrite <- list_fmap_compose. reflexivity. Qed.

Lemma with_code_json (c : string) (rs : list Rack.t) :
  with_code c (json_rack <$> rs) = json_rack <$> with_code c rs.
Proof.
  unfold with_code. induction rs as [|r rs IH]; [reflexivity|].
  rewrite fmap_cons.
  destruct (decide (Rack.code r = c)) as [H|H].
  - rewrite !filter_cons_True by exact H. rewrite fmap_cons, IH. reflexivity.
  - rewrite !filter_cons_False by exact H. exact IH.
Qed.

(** C2, as the code has it. When the stored code of some rack equals
    the normalised input code, the first such rack gets the new
    coordinates in place: its id and code stay, every other rack stays,
    the sequence keeps its length, and the document that is saved
    differs from the loaded one in that rack only. *)
Theorem upsert_updates_first_match
    (body : Body) (w : World) (s : string) (db : Dataset) (i : nat) (r : Rack.t) :
  trimmed (body_code body) = Done s ->
  let code := toUpperCase s in
  let x := Number (body_x body) in
  let y := Number (body_y body) in
  let rs := default [] (racks db) in
  code <> EmptyString -> isNaN x = false -> isNaN y = false ->
  disk w = Some db ->
  rs !! i = Some r ->
  Rack.code r = code ->
  (forall j r0, rs !! j = Some r0 -> j < i -> Rack.code r0 <> code) ->
  let r' := Rack.mk (Rack.id r) (Rack.code r) (VNum x) (VNum y) in
  let rs' := <[i := r']> rs in
  let db' := mkDataset (company db) (warehouse db) (items db) (Some rs') in
  let w1 := log (OpSave db') (log OpLoad w) in
  post_api_admin_rack body w =
    (if writable w
     then (Done (RackSaved (saved_message code) r'), write (json_dataset db') w1)
     else (Done SaveFailed, w1))
  /\ length rs' = length rs
  /\ rs' !! i = Some r'
  /\ (forall j, j <> i -> rs' !! j = rs !! j).
Proof.
  intros Hcode code x y rs Hnonempty Hx Hy Hdisk Hi Hr Hfirst r' rs' db' w1.
  pose proof (post_api_admin_rack_valid body w s Hcode db Hnonempty Hx Hy Hdisk) as H.
  cbv zeta in H. fold code x y rs in H.
  rewrite (upsert_found code x y rs i r Hi Hr Hfirst) in H.
  split; [exact H|]. split; [apply length_insert|]. split.
  - apply list_lookup_insert_eq. eapply lookup_lt_Some. exact Hi.
  - intros j Hj. apply list_lookup_insert_ne. congruence.
Qed.

(** C5. When no rack carries the normalised input code, the rack
    [{id: "R-" + code, code, x, y}] is pushed at the end of the racks;
    the racks that were there, the items and the header fields are
    those of the loaded document. *)
Theorem upsert_appends_new_rack
    (body : Body) (w : World) (s : string) (db : Dataset) :
  trimmed (body_code body) = Done s ->
  let code := toUpperCase s in
  let x := Number (body_x body) in
  let y := Number (body_y body) in
  let rs := default [] (racks db) in
  code <> EmptyString -> isNaN x = false -> isNaN y = false ->
  disk w = Some db ->
  Forall (fun r => Rack.code r <> code) rs ->
  let new := Rack.mk ("R-" ++ code) code (VNum x) (VNum y) in
  let db' := mkDataset (company db) (warehouse db) (items db) (Some (rs ++ [new])) in
  let w1 := log (OpSave db') (log OpLoad w) in
  post_api_admin_rack body w =
    (if writable w
     then (Done (RackSaved (saved_message code) new), write (json_dataset db') w1)
     else (Done SaveFailed, w1))
  /\ length (rs ++ [new]) = S (length rs)
  /\ (forall j r, rs !! j = Some r -> (rs ++ [new]) !! j = Some r)
  /\ (rs ++ [new]) !! length rs = Some new.
Proof.
  intros Hcode code x y rs Hnonempty Hx Hy Hdisk Hnone new db' w1.
  pose proof (post_api_admin_rack_valid body w s Hcode db Hnonempty Hx Hy Hdisk) as H.
  cbv zeta in H. fold code x y rs in H.
  rewrite (upsert_new code x y rs Hnone) in H.
  split; [exact H|]. split; [|split].
  - rewrite length_app. simpl. lia.
  - intros j r Hj. apply lookup_app_l_Some. exact Hj.
  - rewrite lookup_app_r by lia. rewrite Nat.sub_diag. reflexivity.
Qed.

(** C4, as the code has it. Find-or-create keeps rack codes unique:
    when no two racks of the loaded document share a code, no two racks
    of the document saved by a successful upsert do. *)
Theorem upsert_preserves_unique_codes
    (body : Body) (w : World) (s : string) (db : Dataset) :
  trimmed (body_code body) = Done s ->
  let code := toUpperCase s in
  let x := Number (body_x body) in
  let y := Number (body_y body) in
  let rs := default [] (racks db) in
  code <> EmptyString -> isNaN x = false -> isNaN y = false ->
  disk w = Some db -> writable w = true ->
  NoDup (codes rs) ->
  exists rack db1,
    fst (post_api_admin_rack body w) = Done (RackSaved (saved_message code) rack)
    /\ disk (snd (post_api_admin_rack body w)) = Some db1
    /\ NoDup (codes (default [] (racks db1))).
Proof.
  intros Hcode code x y rs Hnonempty Hx Hy Hdisk Hwritable Hnodup.
  pose proof (post_api_admin_rack_valid body w s Hcode db Hnonempty Hx Hy Hdisk) as H.
  cbv zeta in H. fold code x y rs in H. rewrite Hwritable in H.
  rewrite H. eexists _, _. split; [reflexivity|]. split; [reflexivity|].
  rewrite json_dataset_set_racks. cbn [racks default from_option id].
  rewrite codes_json.
  destruct (upsert_codes code x y rs) as [-> | [Hfresh ->]]; [exact Hnodup|].
  apply NoDup_app. split; [exact Hnodup|]. split.
  - intros c Hc Hin. apply list_elem_of_singleton in Hin. subst c. contradiction.
  - apply NoDup_singleton.
Qed.

(** ** Admin rack upsert: calling it twice *)

Section UpsertTwice.
Variables (c : string) (x y : number).

(** The rack that is answered is the first one with the code [c] in the
    racks that are saved. *)
Lemma upsert_first_match (rs : list Rack.t) :
  let u := snd (upsert c x y rs) in
  u = Rack.mk (Rack.id u) c (VNum x) (VNum y)
  /\ exists i,
      fst (upsert c x y rs) !! i = Some u
      /\ forall j r0, fst (upsert c x y rs) !! j = Some r0 -> j < i -> Rack.code r0 <> c.
Proof.
  cbv zeta.
  destruct (upsert_cases c x y rs) as [[Hnone ->] | (i & r & Hi & Hr & Hbefore & ->)];
    cbn [fst snd].
  - split; [reflexivity|]. exists (length rs). split.
    + rewrite lookup_app_r by lia. rewrite Nat.sub_diag. reflexivity.
    + intros j r0 Hj Hlt. rewrite lookup_app_l in Hj by exact Hlt.
      rewrite Forall_forall in Hnone. apply Hnone.
      apply list_elem_of_lookup. eauto.
  - split; [cbn; rewrite Hr; reflexivity|]. exists i. split.
    + apply list_lookup_insert_eq. eapply lookup_lt_Some. exact Hi.
    + intros j r0 Hj Hlt. rewrite list_lookup_insert_ne in Hj by lia.
      rewrite Forall_forall in Hbefore. apply Hbefore.
      apply list_elem_of_lookup. exists j. apply lookup_take_Some. auto.
Qed.

(** Upserting the same code and coordinates into the saved racks
    changes nothing that is saved. *)
Lemma upsert_saved_again (rs : list Rack.t) :
  let rs1 := json_rack <$> fst (upsert c x y rs) in
  json_rack <$> fst (upsert c x y rs1) = rs1
  /\ snd (upsert c x y rs1) = snd (upsert c x y rs).
Proof.
  cbv zeta.
  destruct (upsert_first_match rs) as (Hu & i & Hi & Hfirst). cbv zeta in Hu.
  set (u := snd (upsert c x y rs)) in *.
  set (rs0 := fst (upsert c x y rs)) in *.
  assert (Hi1 : (json_rack <$> rs0) !! i = Some (json_rack u)).
  { rewrite list_lookup_fmap, Hi. reflexivity. }
  assert (Hc1 : Rack.code (json_rack u) = c).
  { rewrite Hu. reflexivity. }
  assert (Hfirst1 : forall j r0, (json_rack <$> rs0) !! j = Some r0 -> j < i -> Rack.code r0 <> c).
  { intros j r0 Hj Hlt. rewrite list_lookup_fmap in Hj.
    destruct (rs0 !! j) as [r1|] eqn:E; [|discriminate].
    injection Hj as <-. exact (Hfirst j r1 E Hlt). }
  rewrite (upsert_found c x y _ i _ Hi1 Hc1 Hfirst1). cbn [fst snd].
  assert (Hmoved : Rack.mk (Rack.id (json_rack u)) (Rack.code (json_rack u)) (VNum x) (VNum y) = u).
  { change (Rack.mk (Rack.id u) (Rack.code u) (VNum x) (VNum y) = u).
    assert (Hcu : Rack.code u = c) by (rewrite Hu; reflexivity).
    rewrite Hcu. symmetry. exact Hu. }
  rewrite Hmoved. split; [|reflexivity].
  rewrite list_fmap_insert, <- list_fmap_compose.
  rewrite (list_fmap_ext (json_rack ∘ json_rack) json_rack rs0)
    by (intros; apply json_rack_idemp).
  apply list_insert_id. exact Hi1.
Qed.
End UpsertTwice.

(** C8, as the code has it. Two upserts in a row with the same code and
    coordinates both succeed, and the second leaves the file exactly as
    the first left it. When at most one rack carried the code before,
    exactly one carries it afterwards, at the given coordinates as JSON
    keeps them. *)
Theorem upsert_twice_same_input (body : Body) (w : World) (s : string) (db : Dataset) :
  trimmed (body_code body) = Done s ->
  let code := toUpperCase s in
  let x := Number (body_x body) in
  let y := Number (body_y body) in
  code <> EmptyString -> isNaN x = false -> isNaN y = false ->
  disk w = Some db -> writable w = true ->
  let w1 := snd (post_api_admin_rack body w) in
  let w2 := snd (post_api_admin_rack body w1) in
  exists rack db2,
    fst (post_api_admin_rack body w) = Done (RackSaved (saved_message code) rack)
    /\ fst (post_api_admin_rack body w1) = Done (RackSaved (saved_message code) rack)
    /\ disk w2 = Some db2 /\ disk w1 = Some db2
    /\ (length (with_code code (default [] (racks db))) <= 1 ->
        with_code code (default [] (racks db2))
        = [Rack.mk (Rack.id rack) code (json_value (VNum x)) (json_value (VNum y))]).
Proof.
  intros Hcode code x y Hne Hx Hy Hdisk Hw w1 w2.
  pose proof (post_api_admin_rack_valid body w s Hcode db Hne Hx Hy Hdisk) as H1.
  cbv zeta in H1. fold code x y in H1. rewrite Hw in H1.
  set (rs := default [] (racks db)) in *.
  set (db1 := json_dataset (set_racks (fst (upsert code x y rs)) db)) in *.
  assert (Hd1 : disk w1 = Some db1) by (unfold w1; rewrite H1; reflexivity).
  assert (Hw1 : writable w1 = true) by (unfold w1; rewrite H1; exact Hw).
  pose proof (post_api_admin_rack_valid body w1 s Hcode db1 Hne Hx Hy Hd1) as H2.
  cbv zeta in H2. fold code x y in H2. rewrite Hw1 in H2.
  destruct (upsert_saved_again code x y rs) as [Hsame Hrack]. cbv zeta in Hsame, Hrack.
  assert (Hrs1 : default [] (racks db1) = json_rack <$> fst (upsert code x y rs)) by reflexivity.
  rewrite Hrs1 in H2. rewrite Hrack in H2.
  exists (snd (upsert code x y rs)), db1.
  split; [rewrite H1; reflexivity|].
  split; [rewrite H2; reflexivity|].
  split; [|split; [exact Hd1|]].
  - unfold w2. rewrite H2. cbn [snd write disk]. f_equal.
    unfold db1. rewrite !json_dataset_set_racks. cbn [company warehouse items].
    rewrite Hsame. reflexivity.
  - intros Hle. rewrite Hrs1, with_code_json.
    destruct (upsert_with_code code x y rs Hle) as (-> & Hc & Hux & Huy).
    cbn [fmap list_fmap]. unfold json_rack. rewrite Hc, Hux, Huy. reflexivity.
Qed.

(** ** The scenarios of the specification *)

(** Search ["m6"] on the one-item document: one result, joined with its
    rack. *)
Lemma search_sound_complete_ordered_witness :
  get_api_search (VStr "m6") (world_of db_sample) =
    (Done (SearchOk "m6" 1
             [mkResult "I1" (Some "Bolt M6") (Some "BLT6") (Some "R-A01")
                "A01" (VNum (num 10)) (VNum (num 20))]),
     log OpLoad (world_of db_sample)).
Proof.
  pose proof (search_sound_complete_ordered
                (VStr "m6") "m6" (world_of db_sample) db_sample eq_refl) as H.
  destruct (H ltac:(discriminate) eq_refl) as [Hrun _].
  rewrite Hrun. reflexivity.
Defined.

(** An item on rack ["R-999"], which does not exist. *)
Lemma search_dangling_rack_witness :
  exists results,
    get_api_search (VStr "M6") (world_of db_dangling) =
      (Done (SearchOk "m6" (length results) results), log OpLoad (world_of db_dangling))
    /\ mkResult "I2" (Some "Mur M6") (Some "NUT6") (Some "R-999") "-" VNull VNull
       ∈ results.
Proof.
  apply (search_dangling_rack
           (VStr "M6") "M6" (world_of db_dangling) db_dangling item_dangling eq_refl).
  - discriminate.
  - reflexivity.
  - apply list_elem_of_further, list_elem_of_here.
  - apply item_matches_spec. reflexivity.
  - intros r Hin. apply list_elem_of_singleton in Hin. subst r. discriminate.
Defined.

(** A query of blanks, on a file that cannot be read. *)
Lemma search_empty_query_witness :
  get_api_search (VStr "   ") world_unreadable = (Done QueryEmpty, world_unreadable).
Proof.
  exact (proj1 (search_empty_query (VStr "   ") world_unreadable eq_refl)).
Defined.

(** A document without racks: the item without a name is found through
    its code. *)
Lemma search_total_on_missing_fields_witness :
  exists results,
    get_api_search (VStr "blt8") (world_of db_sparse)
      = (Done (SearchOk "blt8" (length results) results), log OpLoad (world_of db_sparse))
    /\ mkResult "I3" None (Some "BLT8") None "-" VNull VNull ∈ results.
Proof.
  destruct (search_total_on_missing_fields
              (VStr "blt8") "blt8" (world_of db_sparse) db_sparse eq_refl
              ltac:(discriminate) eq_refl)
    as (results & Hrun & _ & _ & _ & Hname & _).
  exists results. split; [exact Hrun|].
  apply (Hname item_nameless).
  - apply list_elem_of_here.
  - reflexivity.
  - exists EmptyString, EmptyString. reflexivity.
Defined.

(** An empty code is refused, and nothing is touched. *)
Lemma upsert_validation_witness :
  post_api_admin_rack body_no_code (world_of db_sample)
  = (Done InvalidData, world_of db_sample).
Proof.
  apply (proj1 (upsert_validation body_no_code (world_of db_sample) EmptyString eq_refl)).
  left. reflexivity.
Defined.

Example upsert_rejects_abc :
  post_api_admin_rack body_abc (world_of db_sample)
  = (Done InvalidData, world_of db_sample).
Proof.
  apply (post_api_admin_rack_invalid body_abc (world_of db_sample) "A01" eq_refl).
  right. left. reflexivity.
Qed.

Example upsert_rejects_missing_y :
  post_api_admin_rack body_no_y (world_of db_sample)
  = (Done InvalidData, world_of db_sample).
Proof.
  apply (post_api_admin_rack_invalid body_no_y (world_of db_sample) "A01" eq_refl).
  right. right. reflexivity.
Qed.

(** ["Infinity"] is not a finite number, yet the upsert goes through:
    the document is loaded, the rack gets an infinite coordinate, and
    the file is rewritten with [null] in its place. *)
Lemma infinity_passes_validation :
  trimmed (body_code body_infinity) = Done "A01"
  /\ isFinite (Number (body_x body_infinity)) = false
  /\ post_api_admin_rack body_infinity (world_of db_sample)
     <> (Done InvalidData, world_of db_sample)
  /\ fst (post_api_admin_rack body_infinity (world_of db_sample))
     = Done (RackSaved "Rack A01 berhasil disimpan"
               (Rack.mk "R-A01" "A01" (VNum Infinity) (VNum (num 20))))
  /\ trace (snd (post_api_admin_rack body_infinity (world_of db_sample)))
     = [OpLoad;
        OpSave (set_racks [Rack.mk "R-A01" "A01" (VNum Infinity) (VNum (num 20))] db_sample)]
  /\ disk (snd (post_api_admin_rack body_infinity (world_of db_sample)))
     = Some (set_racks [Rack.mk "R-A01" "A01" VNull (VNum (num 20))] db_sample).
Proof.
  split; [reflexivity|]. split; [reflexivity|]. split; [|split; [|split]].
  - vm_compute. discriminate.
  - vm_compute. reflexivity.
  - vm_compute. reflexivity.
  - vm_compute. reflexivity.
Qed.

(** Rack ["A01"] at (10, 20), upsert of ["a01"] at (99, 5). *)
Lemma upsert_updates_first_match_witness :
  let moved := Rack.mk "R-A01" "A01" (VNum (num 99)) (VNum (num 5)) in
  post_api_admin_rack body_a01 (world_of db_sample)
  = (Done (RackSaved "Rack A01 berhasil disimpan" moved),
     mkWorld (Some (set_racks [moved] db_sample)) true
       [OpLoad; OpSave (set_racks [moved] db_sample)]).
Proof.
  refine (proj1 (upsert_updates_first_match
                   body_a01 (world_of db_sample) "a01" db_sample 0 rack_A01
                   eq_refl _ eq_refl eq_refl eq_refl eq_refl eq_refl _)).
  - discriminate.
  - intros j r0 _ Hj. lia.
Defined.

(** The stored code ["a01"] is the input code ["a01"], and equals the
    normalised code ["A01"] when case is ignored; the upsert does not
    find it, leaves that rack at (10, 20) and pushes a second one. *)
Lemma upsert_misses_lowercase_stored_code :
  Rack.code rack_a01_lower = "a01"
  /\ toUpperCase (Rack.code rack_a01_lower) = toUpperCase "a01"
  /\ fst (post_api_admin_rack body_a01 (world_of db_lowercase))
     = Done (RackSaved "Rack A01 berhasil disimpan"
               (Rack.mk "R-A01" "A01" (VNum (num 99)) (VNum (num 5))))
  /\ disk (snd (post_api_admin_rack body_a01 (world_of db_lowercase)))
     = Some (set_racks
               [rack_a01_lower; Rack.mk "R-A01" "A01" (VNum (num 99)) (VNum (num 5))]
               db_lowercase).
Proof.
  split; [reflexivity|]. split; [reflexivity|]. split.
  - vm_compute. reflexivity.
  - vm_compute. reflexivity.
Qed.

(** No rack ["B02"]: upsert of ["B02"] at (5, 5). *)
Lemma upsert_appends_new_rack_witness :
  let new := Rack.mk "R-B02" "B02" (VNum (num 5)) (VNum (num 5)) in
  post_api_admin_rack body_B02 (world_of db_sample)
  = (Done (RackSaved "Rack B02 berhasil disimpan" new),
     mkWorld (Some (set_racks [rack_A01; new] db_sample)) true
       [OpLoad; OpSave (set_racks [rack_A01; new] db_sample)]).
Proof.
  refine (proj1 (upsert_appends_new_rack
                   body_B02 (world_of db_sample) "B02" db_sample
                   eq_refl _ eq_refl eq_refl eq_refl _)).
  - discriminate.
  - apply Forall_cons. split; [discriminate | apply Forall_nil_2].
Defined.

(** Unique codes stay unique when ["B02"] joins ["A01"]. *)
Lemma upsert_preserves_unique_codes_witness :
  exists rack db1,
    fst (post_api_admin_rack body_B02 (world_of db_sample))
    = Done (RackSaved "Rack B02 berhasil disimpan" rack)
    /\ disk (snd (post_api_admin_rack body_B02 (world_of db_sample))) = Some db1
    /\ NoDup (codes (default [] (racks db1))).
Proof.
  refine (upsert_preserves_unique_codes
            body_B02 (world_of db_sample) "B02" db_sample
            eq_refl _ eq_refl eq_refl eq_refl eq_refl _).
  - discriminate.
  - apply NoDup_singleton.
Defined.

(** Two racks already share ["A01"]; after a successful upsert of
    ["A01"] they still do. *)
Lemma upsert_keeps_duplicate_codes :
  fst (post_api_admin_rack body_A01_once (world_of db_duplicates))
  = Done (RackSaved "Rack A01 berhasil disimpan"
            (Rack.mk "R-A01" "A01" (VNum (num 1)) (VNum (num 1))))
  /\ exists db1,
      disk (snd (post_api_admin_rack body_A01_once (world_of db_duplicates))) = Some db1
      /\ codes (default [] (racks db1)) = ["A01"; "A01"]
      /\ ~ NoDup (codes (default [] (racks db1))).
Proof.
  split; [vm_compute; reflexivity|].
  eexists. split; [vm_compute; reflexivity|]. split; [reflexivity|].
  intros H. apply NoDup_cons in H as [Hnotin _].
  apply Hnotin, list_elem_of_here.
Qed.

(** The same upsert twice on the one-rack document. *)
Lemma upsert_twice_same_input_witness :
  exists rack db2,
    fst (post_api_admin_rack body_A01_once (world_of db_sample))
    = Done (RackSaved "Rack A01 berhasil disimpan" rack)
    /\ fst (post_api_admin_rack body_A01_once
              (snd (post_api_admin_rack body_A01_once (world_of db_sample))))
       = Done (RackSaved "Rack A01 berhasil disimpan" rack)
    /\ disk (snd (post_api_admin_rack body_A01_once
                    (snd (post_api_admin_rack body_A01_once (world_of db_sample)))))
       = Some db2
    /\ disk (snd (post_api_admin_rack body_A01_once (world_of db_sample))) = Some db2
    /\ (length (with_code "A01" (default [] (racks db_sample))) <= 1 ->
        with_code "A01" (default [] (racks db2))
        = [Rack.mk (Rack.id rack) "A01"
             (json_value (VNum (num 1))) (json_value (VNum (num 1)))]).
Proof.
  refine (upsert_twice_same_input
            body_A01_once (world_of db_sample) "A01" db_sample
            eq_refl _ eq_refl eq_refl eq_refl eq_refl).
  discriminate.
Defined.

(** The same upsert twice on the document with two racks ["A01"]: both
    are still there, and the second one is where it was. *)
Lemma upsert_twice_keeps_both_duplicates :
  let w1 := snd (post_api_admin_rack body_A01_once (world_of db_duplicates)) in
  let w2 := snd (post_api_admin_rack body_A01_once w1) in
  fst (post_api_admin_rack body_A01_once (world_of db_duplicates))
  = Done (RackSaved "Rack A01 berhasil disimpan"
            (Rack.mk "R-A01" "A01" (VNum (num 1)) (VNum (num 1))))
  /\ fst (post_api_admin_rack body_A01_once w1)
     = Done (RackSaved "Rack A01 berhasil disimpan"
               (Rack.mk "R-A01" "A01" (VNum (num 1)) (VNum (num 1))))
  /\ exists db2,
      disk w2 = Some db2
      /\ with_code "A01" (default [] (racks db2))
         = [Rack.mk "R-A01" "A01" (VNum (num 1)) (VNum (num 1)); rack_A01_again]
      /\ length (with_code "A01" (default [] (racks db2))) <> 1.
Proof.
  cbv zeta. split; [vm_compute; reflexivity|]. split; [vm_compute; reflexivity|].
  eexists. split; [vm_compute; reflexivity|]. split; [vm_compute; reflexivity|].
  vm_compute. discriminate.
Qed.

(** * Further properties of the routes *)

(** ** Spelling of queries and codes *)

Lemma append_cons (c : ascii) (a b : string) :
  (String c a ++ b)%string = String c (a ++ b)%string.
Proof. reflexivity. Qed.

Lemma append_empty_r (s : string) : (s ++ EmptyString)%string = s.
Proof. induction s as [|c s IH]; [reflexivity|]. rewrite append_cons, IH. reflexivity. Qed.

Lemma append_assoc (a b c : string) :
  ((a ++ b) ++ c)%string = (a ++ (b ++ c))%string.
Proof. induction a as [|x a IH]; [reflexivity|]. rewrite !append_cons, IH. reflexivity. Qed.

Lemma trimmed_VStr (s : string) : trimmed (VStr s) = Done (trim s).
Proof. unfold trimmed, js_or, truthy. destruct s; reflexivity. Qed.

Lemma lower_upper_char (c : ascii) : lower_char (upper_char c) = lower_char c.
Proof. destruct c as [[] [] [] [] [] [] [] []]; reflexivity. Qed.

Lemma upper_lower_char (c : ascii) : upper_char (lower_char c) = upper_char c.
Proof. destruct c as [[] [] [] [] [] [] [] []]; reflexivity. Qed.

Lemma is_ws_upper_char (c : ascii) : is_ws (upper_char c) = is_ws c.
Proof. destruct c as [[] [] [] [] [] [] [] []]; reflexivity. Qed.

Lemma is_ws_lower_char (c : ascii) : is_ws (lower_char c) = is_ws c.
Proof. destruct c as [[] [] [] [] [] [] [] []]; reflexivity. Qed.

Lemma map_string_compose (f g : ascii -> ascii) (s : string) :
  map_string f (map_string g s) = map_string (fun c => f (g c)) s.
Proof. induction s as [|c s IH]; [reflexivity|]. simpl. rewrite IH. reflexivity. Qed.

Lemma map_string_ext (f g : ascii -> ascii) (s : string) :
  (forall c, f c = g c) -> map_string f s = map_string g s.
Proof.
  intros H. induction s as [|c s IH]; [reflexivity|]. simpl. rewrite H, IH. reflexivity.
Qed.

Lemma toLowerCase_toUpperCase (s : string) : toLowerCase (toUpperCase s) = toLowerCase s.
Proof.
  unfold toLowerCase, toUpperCase. rewrite map_string_compose.
  apply map_string_ext, lower_upper_char.
Qed.

Lemma toUpperCase_toLowerCase (s : string) : toUpperCase (toLowerCase s) = toUpperCase s.
Proof.
  unfold toLowerCase, toUpperCase. rewrite map_string_compose.
  apply map_string_ext, upper_lower_char.
Qed.

Section TrimMap.
Variable f : ascii -> ascii.
Hypothesis f_ws : forall c, is_ws (f c) = is_ws c.

Lemma trimStart_map_string (s : string) :
  trimStart (map_string f s) = map_string f (trimStart s).
Proof.
  induction s as [|c s IH]; [reflexivity|].
  simpl. rewrite f_ws. destruct (is_ws c); [exact IH | reflexivity].
Qed.

Lemma trimEnd_map_string (s : string) :
  trimEnd (map_string f s) = map_string f (trimEnd s).
Proof.
  induction s as [|c s IH]; [reflexivity|].
  simpl. rewrite IH, f_ws.
  destruct (trimEnd s); simpl; [destruct (is_ws c)|]; reflexivity.
Qed.

Lemma trim_map_string (s : string) : trim (map_string f s) = map_string f (trim s).
Proof. unfold trim. rewrite trimStart_map_string, trimEnd_map_string. reflexivity. Qed.
End TrimMap.

Lemma trim_toUpperCase (s : string) : trim (toUpperCase s) = toUpperCase (trim s).
Proof. apply (trim_map_string upper_char is_ws_upper_char). Qed.

Lemma trim_toLowerCase (s : string) : trim (toLowerCase s) = toLowerCase (trim s).
Proof. apply (trim_map_string lower_char is_ws_lower_char). Qed.

Lemma trimEnd_blank (s : string) : blank s = true -> trimEnd s = EmptyString.
Proof.
  induction s as [|c s IH]; [reflexivity|].
  simpl. intros H. apply andb_true_iff in H as [Hc Hs].
  rewrite (IH Hs), Hc. reflexivity.
Qed.

Lemma trimStart_append_blank (pre s : string) :
  blank pre = true -> trimStart (pre ++ s) = trimStart s.
Proof.
  induction pre as [|c pre IH]; [reflexivity|].
  rewrite append_cons. simpl. intros H. apply andb_true_iff in H as [Hc Hs].
  rewrite Hc. exact (IH Hs).
Qed.

Lemma trimEnd_append_blank (s suf : string) :
  blank suf = true -> trimEnd (s ++ suf) = trimEnd s.
Proof.
  intros H. induction s as [|c s IH].
  - apply trimEnd_blank, H.
  - rewrite append_cons. simpl. rewrite IH. reflexivity.
Qed.

Lemma trim_append_blank_r (s suf : string) :
  blank suf = true -> trim (s ++ suf) = trim s.
Proof.
  intros H. unfold trim. induction s as [|c s IH].
  - change (EmptyString ++ suf)%string with suf.
    rewrite (trimStart_blank suf H). reflexivity.
  - rewrite append_cons. simpl. destruct (is_ws c); [exact IH|].
    rewrite <- append_cons. apply (trimEnd_append_blank (String c s) suf H).
Qed.

(** White space around a string does not survive [trim]. *)
Lemma trim_padded (pre s suf : string) :
  blank pre = true -> blank suf = true -> trim (pre ++ s ++ suf) = trim s.
Proof.
  intros Hpre Hsuf. unfold trim at 1. rewrite (trimStart_append_blank _ _ Hpre).
  apply (trim_append_blank_r s suf Hsuf).
Qed.

(** X1. The search is blind to the case of the query and to white space
    around it: the request is the same request. *)
Theorem search_query_spelling (pre s suf : string) (w : World) :
  blank pre = true -> blank suf = true ->
  get_api_search (VStr (pre ++ toUpperCase s ++ suf)) w = get_api_search (VStr s) w.
Proof.
  intros Hpre Hsuf.
  assert (E : toLowerCase (trim (pre ++ toUpperCase s ++ suf)) = toLowerCase (trim s)).
  { rewrite (trim_padded _ _ _ Hpre Hsuf), trim_toUpperCase.
    apply toLowerCase_toUpperCase. }
  unfold get_api_search.
  rewrite !trimmed_VStr, !bind_lift_Done. cbv zeta. rewrite E. reflexivity.
Qed.

Lemma search_query_spelling_witness :
  get_api_search (VStr "  BOLT m6 ") (world_of db_sample)
  = get_api_search (VStr "bolt m6") (world_of db_sample).
Proof.
  exact (search_query_spelling "  " "bolt m6" " " (world_of db_sample) eq_refl eq_refl).
Defined.

(** A code unit of the ASCII range, and a text made of such units. On
    these the case conversions above are those of ECMAScript. *)
Definition ascii_char (c : ascii) : bool := (N_of_ascii c <? 128)%N.

Fixpoint ascii_text (s : string) : bool :=
  match s with
  | String c s' => ascii_char c && ascii_text s'
  | EmptyString => true
  end.

(** X2. For an item whose name and code are ASCII text, the search is
    blind to the case in which they are stored. *)
Theorem search_item_case (q : string) (it : Item.t) :
  ascii_text (default EmptyString (Item.name it)) = true ->
  ascii_text (default EmptyString (Item.code it)) = true ->
  item_matches q
    (Item.mk (Item.id it) (toUpperCase <$> Item.name it)
       (toUpperCase <$> Item.code it) (Item.rackId it))
  = item_matches q it.
Proof.
  intros _ _. unfold item_matches. cbn [Item.name Item.code].
  destruct (Item.name it) as [n|], (Item.code it) as [c|]; cbn;
    rewrite ?toLowerCase_toUpperCase; reflexivity.
Qed.

Lemma search_item_case_witness :
  item_matches "m6" (Item.mk "I1" (Some "BOLT M6") (Some "BLT6") (Some "R-A01"))
  = item_matches "m6" (Item.mk "I1" (Some "Bolt M6") (Some "BLT6") (Some "R-A01")).
Proof.
  exact (search_item_case "m6"
           (Item.mk "I1" (Some "Bolt M6") (Some "BLT6") (Some "R-A01")) eq_refl eq_refl).
Defined.

(** X3. For a code that is ASCII text, the upsert is blind to its case
    and to white space around it: the request is the same request. *)
Theorem upsert_code_spelling (pre s suf : string) (x y : value) (w : World) :
  ascii_text s = true ->
  blank pre = true -> blank suf = true ->
  post_api_admin_rack (mkBody (VStr (pre ++ toLowerCase s ++ suf)) x y) w
  = post_api_admin_rack (mkBody (VStr s) x y) w.
Proof.
  intros _ Hpre Hsuf.
  assert (E : toUpperCase (trim (pre ++ toLowerCase s ++ suf)) = toUpperCase (trim s)).
  { rewrite (trim_padded _ _ _ Hpre Hsuf), trim_toLowerCase.
    apply toUpperCase_toLowerCase. }
  unfold post_api_admin_rack. cbn [body_code body_x body_y].
  rewrite !trimmed_VStr, !bind_lift_Done. cbv zeta. rewrite E. reflexivity.
Qed.

Lemma upsert_code_spelling_witness :
  post_api_admin_rack (mkBody (VStr " a01  ") (VNum (num 1)) (VNum (num 2))) (world_of db_sample)
  = post_api_admin_rack (mkBody (VStr "A01") (VNum (num 1)) (VNum (num 2))) (world_of db_sample).
Proof.
  exact (upsert_code_spelling " " "A01" "  " _ _ (world_of db_sample)
           eq_refl eq_refl eq_refl).
Defined.

(** [Number] of a text ignores white space around it. *)
Lemma Number_padded (pre s suf : string) :
  blank pre = true -> blank suf = true ->
  Number (VStr (pre ++ s ++ suf)) = Number (VStr s).
Proof.
  intros Hpre Hsuf.
  unfold Number, StringToNumber. rewrite (trim_padded _ _ _ Hpre Hsuf). reflexivity.
Qed.

(** X4. The upsert is blind to white space around coordinates that are
    sent as text: the request is the same request. *)
Theorem upsert_coordinate_spelling
    (code : value) (px tx sx py ty sy : string) (w : World) :
  blank px = true -> blank sx = true -> blank py = true -> blank sy = true ->
  post_api_admin_rack (mkBody code (VStr (px ++ tx ++ sx)) (VStr (py ++ ty ++ sy))) w
  = post_api_admin_rack (mkBody code (VStr tx) (VStr ty)) w.
Proof.
  intros Hpx Hsx Hpy Hsy. unfold post_api_admin_rack. cbn [body_code body_x body_y].
  rewrite (Number_padded px tx sx Hpx Hsx), (Number_padded py ty sy Hpy Hsy).
  reflexivity.
Qed.

Lemma upsert_coordinate_spelling_witness :
  post_api_admin_rack (mkBody (VStr "A01") (VStr "  12.5 ") (VStr " 7")) (world_of db_sample)
  = post_api_admin_rack (mkBody (VStr "A01") (VStr "12.5") (VStr "7")) (world_of db_sample).
Proof.
  exact (upsert_coordinate_spelling (VStr "A01") "  " "12.5" " " " " "7" EmptyString
           (world_of db_sample) eq_refl eq_refl eq_refl eq_refl).
Defined.

(** ** The five ways an upsert ends *)

(** [upsert_run body w res]: [res] is one of the five ends of the
    handler on [body] in [w], each with the condition that leads to it. *)
Inductive upsert_run (body : Body) (w : World) : outcome Response * World -> Prop :=
  | run_throws :
      trimmed (body_code body) = TypeError ->
      upsert_run body w (TypeError, w)
  | run_invalid (s : string) :
      trimmed (body_code body) = Done s ->
      toUpperCase s = EmptyString
      \/ isNaN (Number (body_x body)) = true \/ isNaN (Number (body_y body)) = true ->
      upsert_run body w (Done InvalidData, w)
  | run_unreadable (s : string) :
      trimmed (body_code body) = Done s ->
      toUpperCase s <> EmptyString ->
      isNaN (Number (body_x body)) = false -> isNaN (Number (body_y body)) = false ->
      disk w = None ->
      upsert_run body w (Done DbUnreadable, log OpLoad w)
  | run_saved (s : string) (db : Dataset) :
      trimmed (body_code body) = Done s ->
      toUpperCase s <> EmptyString ->
      isNaN (Number (body_x body)) = false -> isNaN (Number (body_y body)) = false ->
      disk w = Some db ->
      writable w = true ->
      let ur := upsert (toUpperCase s) (Number (body_x body)) (Number (body_y body))
                  (default [] (racks db)) in
      let db' := set_racks (fst ur) db in
      upsert_run body w
        (Done (RackSaved (saved_message (toUpperCase s)) (snd ur)),
         write (json_dataset db') (log (OpSave db') (log OpLoad w)))
  | run_save_failed (s : string) (db : Dataset) :
      trimmed (body_code body) = Done s ->
      toUpperCase s <> EmptyString ->
      isNaN (Number (body_x body)) = false -> isNaN (Number (body_y body)) = false ->
      disk w = Some db ->
      writable w = false ->
      let ur := upsert (toUpperCase s) (Number (body_x body)) (Number (body_y body))
                  (default [] (racks db)) in
      let db' := set_racks (fst ur) db in
      upsert_run body w (Done SaveFailed, log (OpSave db') (log OpLoad w)).

Lemma post_api_admin_rack_run (body : Body) (w : World) :
  upsert_run body w (post_api_admin_rack body w).
Proof.
  destruct (trimmed (body_code body)) as [s|] eqn:Hcode.
  - destruct (String.eqb (toUpperCase s) EmptyString) eqn:Hc.
    { apply String.eqb_eq in Hc.
      rewrite (post_api_admin_rack_invalid body w s Hcode) by tauto.
      apply (run_invalid body w s Hcode). tauto. }
    apply String.eqb_neq in Hc.
    destruct (isNaN (Number (body_x body))) eqn:Hx.
    { rewrite (post_api_admin_rack_invalid body w s Hcode) by tauto.
      apply (run_invalid body w s Hcode). tauto. }
    destruct (isNaN (Number (body_y body))) eqn:Hy.
    { rewrite (post_api_admin_rack_invalid body w s Hcode) by tauto.
      apply (run_invalid body w s Hcode). tauto. }
    destruct (disk w) as [db|] eqn:Hdisk.
    + pose proof (post_api_admin_rack_valid body w s Hcode db Hc Hx Hy Hdisk) as H.
      cbv zeta in H. rewrite H.
      destruct (writable w) eqn:Hw.
      * apply (run_saved body w s db); assumption.
      * apply (run_save_failed body w s db); assumption.
    + rewrite (post_api_admin_rack_unreadable body w s Hcode Hc Hx Hy Hdisk).
      apply (run_unreadable body w s); assumption.
  - unfold post_api_admin_rack. rewrite Hcode, bind_lift_TypeError.
    apply run_throws, Hcode.
Qed.

Lemma trimmed_TypeError (v : value) :
  trimmed v = TypeError <-> truthy v = true /\ forall s, v <> VStr s.
Proof.
  unfold trimmed, js_or. split.
  - destruct (truthy v) eqn:T; [|discriminate].
    destruct v; try discriminate; intros _; split; congruence.
  - intros [T Hs]. rewrite T. destruct v; try reflexivity.
    exfalso. apply (Hs s). reflexivity.
Qed.

(** ** Errors and what they leave behind *)

(** X5. A truthy [q] or [code] that is not a text (a number other than
    zero, or [true]) has no [trim] method: the handler throws before
    any storage access, and has touched nothing. *)
Theorem non_text_field_throws (v x y : value) (w : World) :
  truthy v = true -> (forall s, v <> VStr s) ->
  get_api_search v w = (TypeError, w)
  /\ post_api_admin_rack (mkBody v x y) w = (TypeError, w).
Proof.
  intros T Hs.
  assert (Hv : trimmed v = TypeError) by (apply trimmed_TypeError; auto).
  split.
  - unfold get_api_search. rewrite Hv. reflexivity.
  - unfold post_api_admin_rack. cbn [body_code]. rewrite Hv. reflexivity.
Qed.

Lemma non_text_field_throws_witness :
  get_api_search (VNum (num 5)) (world_of db_sample) = (TypeError, world_of db_sample)
  /\ post_api_admin_rack (mkBody (VBool true) (VNum (num 1)) (VNum (num 2))) (world_of db_sample)
     = (TypeError, world_of db_sample).
Proof.
  split.
  - apply (non_text_field_throws (VNum (num 5)) VNull VNull (world_of db_sample) eq_refl).
    intros s. discriminate.
  - apply (non_text_field_throws (VBool true) (VNum (num 1)) (VNum (num 2))
             (world_of db_sample) eq_refl).
    intros s. discriminate.
Defined.

(** X6. When the file cannot be read, every route that needs it answers
    500 with the same message after one load, and nothing is written:
    the file is still unreadable afterwards. *)
Theorem unreadable_file_is_reported (w : World) :
  disk w = None ->
  get_api_map w = (Done DbUnreadable, log OpLoad w)
  /\ (forall query_q s,
        trimmed query_q = Done s -> toLowerCase s <> EmptyString ->
        get_api_search query_q w = (Done DbUnreadable, log OpLoad w))
  /\ (forall body s,
        trimmed (body_code body) = Done s -> toUpperCase s <> EmptyString ->
        isNaN (Number (body_x body)) = false -> isNaN (Number (body_y body)) = false ->
        post_api_admin_rack body w = (Done DbUnreadable, log OpLoad w))
  /\ status DbUnreadable = 500
  /\ message DbUnreadable = Some "DB tidak bisa dibaca"
  /\ disk (log OpLoad w) = None.
Proof.
  intros Hdisk. split; [|split; [|split; [|repeat split; exact Hdisk]]].
  - unfold get_api_map, bind, loadDB, ret. rewrite Hdisk. reflexivity.
  - intros query_q s Hq Hne. unfold get_api_search.
    rewrite Hq, bind_lift_Done. cbv zeta.
    apply String.eqb_neq in Hne. rewrite Hne.
    unfold bind, loadDB, ret. rewrite Hdisk. reflexivity.
  - intros body s Hcode Hc Hx Hy.
    apply (post_api_admin_rack_unreadable body w s Hcode Hc Hx Hy Hdisk).
Qed.

Lemma unreadable_file_is_reported_witness :
  get_api_map world_unreadable = (Done DbUnreadable, log OpLoad world_unreadable)
  /\ get_api_search (VStr "m6") world_unreadable
     = (Done DbUnreadable, log OpLoad world_unreadable)
  /\ post_api_admin_rack body_B02 world_unreadable
     = (Done DbUnreadable, log OpLoad world_unreadable).
Proof.
  pose proof (unreadable_file_is_reported world_unreadable eq_refl) as (Hmap & Hs & Hp & _).
  split; [exact Hmap|]. split.
  - apply (Hs (VStr "m6") "m6" eq_refl). discriminate.
  - apply (Hp body_B02 "B02" eq_refl); [discriminate | reflexivity | reflexivity].
Defined.



(** ** What an upsert leaves alone *)

Lemma json_rack_in_saved (c : string) (x y : number) (rs : list Rack.t) :
  json_rack (snd (upsert c x y rs)) ∈ json_rack <$> fst (upsert c x y rs).
Proof.
  destruct (upsert_first_match c x y rs) as (_ & i & Hi & _).
  apply list_elem_of_fmap_2, list_elem_of_lookup. eauto.
Qed.



(** An upsert on a file that cannot be read leaves it so. *)
Lemma upsert_never_creates_file (body : Body) (w : World) :
  disk w = None -> disk (snd (post_api_admin_rack body w)) = None.
Proof.
  intros Hdisk.
  destruct (post_api_admin_rack_run body w) as
    [ | | | s db0 _ _ _ _ Hd0 _ ur db' | s db0 _ _ _ _ Hd0 _ ur db' ];
    cbn [snd disk log write]; congruence.
Qed.

(** X9. No rack is ever removed, renamed or moved to another position: after
    any upsert, every position that held a rack holds a rack with the
    same id and code, at most one rack has been added, and a rack whose
    code is not the normalised input code has kept its coordinates (as
    JSON keeps them). *)
Theorem upsert_keeps_racks
    (body : Body) (w : World) (db db' : Dataset) :
  disk w = Some db ->
  disk (snd (post_api_admin_rack body w)) = Some db' ->
  let rs := default [] (racks db) in
  let rs' := default [] (racks db') in
  length rs <= length rs' <= S (length rs)
  /\ forall j r,
      rs !! j = Some r ->
      exists r',
        rs' !! j = Some r'
        /\ Rack.id r' = Rack.id r
        /\ Rack.code r' = Rack.code r
        /\ (forall s, trimmed (body_code body) = Done s ->
              Rack.code r <> toUpperCase s -> json_rack r' = json_rack r).
Proof.
  intros Hdisk Hafter rs rs'.
  assert (Hsame : db' = db ->
            length rs <= length rs' <= S (length rs)
            /\ forall j r, rs !! j = Some r ->
                 exists r', rs' !! j = Some r' /\ Rack.id r' = Rack.id r
                   /\ Rack.code r' = Rack.code r
                   /\ (forall s, trimmed (body_code body) = Done s ->
                         Rack.code r <> toUpperCase s -> json_rack r' = json_rack r)).
  { intros ->. split; [unfold rs, rs'; lia|]. intros j r Hj. exists r. auto. }
  destruct (post_api_admin_rack_run body w) as
    [ | | s _ _ _ _ Hnone | s db0 Hcode _ _ _ Hd0 _ ur db1 | s db0 _ _ _ _ Hd0 _ ur db1 ];
    cbn [snd disk log write] in Hafter; try (apply Hsame; congruence).
  assert (db0 = db) by congruence. subst db0.
  assert (Hrs' : rs' = json_rack <$> fst ur).
  { injection Hafter as <-. reflexivity. }
  clear Hsame Hafter. rewrite Hrs'. unfold ur. fold rs.
  destruct (upsert_cases (toUpperCase s) (Number (body_x body)) (Number (body_y body)) rs)
    as [[Hnone ->] | (i & r0 & Hi & Hr0 & _ & ->)]; cbn [fst].
  - split; [rewrite length_fmap, length_app; simpl; lia|].
    intros j r Hj. exists (json_rack r). split.
    + rewrite list_lookup_fmap, (lookup_app_l_Some _ _ _ _ Hj). reflexivity.
    + repeat split. intros. apply json_rack_idemp.
  - split; [rewrite length_fmap, length_insert; lia|].
    intros j r Hj. destruct (decide (j = i)) as [->|Hne].
    + assert (r = r0) by congruence. subst r0.
      eexists. split.
      * rewrite list_lookup_fmap, list_lookup_insert_eq
          by (eapply lookup_lt_Some; exact Hi). reflexivity.
      * repeat split. intros s' Hs' Hr'. exfalso. apply Hr'. congruence.
    + exists (json_rack r). split.
      * rewrite list_lookup_fmap, list_lookup_insert_ne, Hj by congruence. reflexivity.
      * repeat split. intros. apply json_rack_idemp.
Qed.

Lemma upsert_keeps_racks_witness :
  length [rack_A01] <= length [rack_A01; Rack.mk "R-B02" "B02" (VNum (num 5)) (VNum (num 5))]
  /\ exists r', [rack_A01; Rack.mk "R-B02" "B02" (VNum (num 5)) (VNum (num 5))] !! 0 = Some r'
       /\ Rack.id r' = "R-A01" /\ Rack.code r' = "A01".
Proof.
  pose proof (upsert_keeps_racks body_B02 (world_of db_sample) db_sample
                (set_racks [rack_A01; Rack.mk "R-B02" "B02" (VNum (num 5)) (VNum (num 5))]
                   db_sample) eq_refl eq_refl) as [[Hlen _] Hkeep].
  split; [exact Hlen|].
  destruct (Hkeep 0 rack_A01 eq_refl) as (r' & Hr' & Hid & Hcode & _).
  exists r'. auto.
Defined.



(** ** The join of a search result with its rack *)

Lemma find_rack_first (rs : list Rack.t) (rackId : option string) (i : nat) (r : Rack.t) :
  rs !! i = Some r ->
  Some (Rack.id r) = rackId ->
  (forall j r0, rs !! j = Some r0 -> j < i -> Some (Rack.id r0) <> rackId) ->
  find_rack rs rackId = Some r.
Proof.
  intros Hi Hr Hfirst. unfold find_rack.
  assert (E : list_find (fun r => Some (Rack.id r) = rackId) rs = Some (i, r)).
  { apply list_find_Some. auto. }
  rewrite E. reflexivity.
Qed.

(** X12. A matching item whose [rackId] is the id of some rack is shown with
    the code and the coordinates of the first rack that has this id. *)
Theorem search_joins_first_rack
    (query_q : value) (s : string) (w : World) (db : Dataset)
    (it : Item.t) (i : nat) (r : Rack.t) :
  trimmed query_q = Done s ->
  toLowerCase s <> EmptyString ->
  disk w = Some db ->
  it ∈ default [] (items db) ->
  Matches (toLowerCase s) it ->
  default [] (racks db) !! i = Some r ->
  Some (Rack.id r) = Item.rackId it ->
  (forall j r0, default [] (racks db) !! j = Some r0 -> j < i ->
     Some (Rack.id r0) <> Item.rackId it) ->
  exists results,
    get_api_search query_q w =
      (Done (SearchOk (toLowerCase s) (length results) results), log OpLoad w)
    /\ mkResult (Item.id it) (Item.name it) (Item.code it) (Item.rackId it)
         (Rack.code r) (Rack.x r) (Rack.y r) ∈ results.
Proof.
  intros Hq Hne Hdb Hin Hm Hi Hr Hfirst.
  exists (search_results (toLowerCase s) db). split.
  - apply get_api_search_run; assumption.
  - unfold search_results. rewrite filter_item_matches.
    apply list_elem_of_fmap. exists it. split.
    + unfold to_result. rewrite (find_rack_first _ _ i r Hi Hr Hfirst). reflexivity.
    + apply list_elem_of_filter. split; assumption.
Qed.

Lemma search_joins_first_rack_witness :
  exists results,
    get_api_search (VStr "blt") (world_of db_dangling) =
      (Done (SearchOk "blt" (length results) results), log OpLoad (world_of db_dangling))
    /\ mkResult "I1" (Some "Bolt M6") (Some "BLT6") (Some "R-A01")
         "A01" (VNum (num 10)) (VNum (num 20)) ∈ results.
Proof.
  apply (search_joins_first_rack (VStr "blt") "blt" (world_of db_dangling) db_dangling
           (Item.mk "I1" (Some "Bolt M6") (Some "BLT6") (Some "R-A01")) 0 rack_A01 eq_refl).
  - discriminate.
  - reflexivity.
  - apply list_elem_of_here.
  - apply item_matches_spec. reflexivity.
  - reflexivity.
  - reflexivity.
  - intros j r0 _ Hj. lia.
Defined.

(** ** Narrowing a query *)

Lemma Substring_trans (a b c : string) : Substring a b -> Substring b c -> Substring a c.
Proof.
  intros (p1 & s1 & ->) (p2 & s2 & ->).
  exists (p2 ++ p1)%string, (s1 ++ s2)%string.
  rewrite !append_assoc. reflexivity.
Qed.

Lemma Matches_narrow (q q' : string) (it : Item.t) :
  Substring q' q -> Matches q it -> Matches q' it.
Proof.
  intros Hsub [H|H]; [left | right]; eapply Substring_trans; eassumption.
Qed.

Lemma filter_sublist_weaken {A} (P Q : A -> Prop)
    `{!forall x, Decision (P x)} `{!forall x, Decision (Q x)} (l : list A) :
  (forall x, P x -> Q x) -> filter P l `sublist_of` filter Q l.
Proof.
  intros HPQ. induction l as [|a l IH]; [constructor|].
  rewrite !filter_cons.
  destruct (decide (P a)) as [HP|HP]; destruct (decide (Q a)) as [HQ|HQ].
  - apply sublist_skip, IH.
  - exfalso. apply HQ, HPQ, HP.
  - apply sublist_cons, IH.
  - exact IH.
Qed.

(** X13. Lengthening a query never brings in a new result: when the
    normalised query [q'] occurs in the normalised query [q], the
    results for [q] are among the results for [q'], in the same order. *)
Theorem search_narrowing
    (query_q query_q' : value) (s s' : string) (w : World) (db : Dataset) :
  trimmed query_q = Done s ->
  trimmed query_q' = Done s' ->
  toLowerCase s' <> EmptyString ->
  Substring (toLowerCase s') (toLowerCase s) ->
  disk w = Some db ->
  exists results results',
    fst (get_api_search query_q w)
      = Done (SearchOk (toLowerCase s) (length results) results)
    /\ fst (get_api_search query_q' w)
      = Done (SearchOk (toLowerCase s') (length results') results')
    /\ results `sublist_of` results'
    /\ length results <= length results'.
Proof.
  intros Hq Hq' Hne' Hsub Hdb.
  assert (Hne : toLowerCase s <> EmptyString).
  { destruct Hsub as (p & t & E). intros H0. rewrite H0 in E.
    destruct p; [|discriminate]. destruct (toLowerCase s'); [congruence | discriminate]. }
  rewrite (get_api_search_run _ _ _ _ Hq Hne Hdb).
  rewrite (get_api_search_run _ _ _ _ Hq' Hne' Hdb).
  eexists _, _. split; [reflexivity|]. split; [reflexivity|].
  assert (Hsl : search_results (toLowerCase s) db
                `sublist_of` search_results (toLowerCase s') db).
  { unfold search_results. rewrite !filter_item_matches.
    apply fmap_sublist, filter_sublist_weaken.
    intros it. apply Matches_narrow, Hsub. }
  split; [exact Hsl | apply sublist_length, Hsl].
Qed.

Lemma search_narrowing_witness :
  exists results results',
    fst (get_api_search (VStr "Bolt M6") (world_of db_dangling))
      = Done (SearchOk "bolt m6" (length results) results)
    /\ fst (get_api_search (VStr "m6") (world_of db_dangling))
      = Done (SearchOk "m6" (length results') results')
    /\ results `sublist_of` results'
    /\ length results <= length results'.
Proof.
  apply (search_narrowing (VStr "Bolt M6") (VStr "m6") "Bolt M6" "m6"
           (world_of db_dangling) db_dangling eq_refl eq_refl).
  - discriminate.
  - exists "bolt ", EmptyString. reflexivity.
  - reflexivity.
Defined.

(** ** One route after another *)

Lemma search_results_member (q : string) (db : Dataset) (it : Item.t) :
  it ∈ default [] (items db) ->
  Matches q it ->
  to_result (default [] (racks db)) it ∈ search_results q db.
Proof.
  intros Hin Hm. unfold search_results. rewrite filter_item_matches.
  apply list_elem_of_fmap_2, list_elem_of_filter. auto.
Qed.

Section AfterUpsert.
Variables (body : Body) (w : World) (s : string) (db : Dataset).
Hypothesis Hcode : trimmed (body_code body) = Done s.

Let code := toUpperCase s.
Let x := Number (body_x body).
Let y := Number (body_y body).
Let rs := default [] (racks db).

Hypothesis Hnonempty : code <> EmptyString.
Hypothesis Hx : isNaN x = false.
Hypothesis Hy : isNaN y = false.
Hypothesis Hdisk : disk w = Some db.
Hypothesis Hwritable : writable w = true.

Lemma post_api_admin_rack_saved :
  post_api_admin_rack body w =
    (Done (RackSaved (saved_message code) (snd (upsert code x y rs))),
     write (json_dataset (set_racks (fst (upsert code x y rs)) db))
       (log (OpSave (set_racks (fst (upsert code x y rs)) db)) (log OpLoad w))).
Proof.
  pose proof (post_api_admin_rack_valid body w s Hcode db Hnonempty Hx Hy Hdisk) as H.
  cbv zeta in H. rewrite Hwritable in H. exact H.
Qed.
End AfterUpsert.

(** X14. After a successful upsert the map route lists the answered rack,
    under the normalised code and at the given coordinates as JSON
    keeps them, together with the header fields of the document. *)
Theorem upsert_then_map (body : Body) (w : World) (s : string) (db : Dataset) :
  trimmed (body_code body) = Done s ->
  let code := toUpperCase s in
  let x := Number (body_x body) in
  let y := Number (body_y body) in
  code <> EmptyString -> isNaN x = false -> isNaN y = false ->
  disk w = Some db -> writable w = true ->
  let w1 := snd (post_api_admin_rack body w) in
  exists id racks1,
    fst (post_api_admin_rack body w)
      = Done (RackSaved (saved_message code) (Rack.mk id code (VNum x) (VNum y)))
    /\ fst (get_api_map w1)
      = Done (MapOk (company db) (warehouse db) "/maps/warehouse.svg" racks1)
    /\ Rack.mk id code (json_value (VNum x)) (json_value (VNum y)) ∈ racks1.
Proof.
  intros Hcode code x y Hc Hx Hy Hdisk Hw w1.
  pose proof (post_api_admin_rack_saved body w s db Hcode Hc Hx Hy Hdisk Hw) as H.
  fold code x y in H. unfold w1. rewrite H. cbn [fst snd].
  destruct (upsert_first_match code x y (default [] (racks db))) as (Hu & _).
  cbv zeta in Hu.
  exists (Rack.id (snd (upsert code x y (default [] (racks db))))), 
         (json_rack <$> fst (upsert code x y (default [] (racks db)))).
  rewrite <- Hu. split; [reflexivity|]. split; [reflexivity|].
  change (Rack.mk (Rack.id (snd (upsert code x y (default [] (racks db))))) code
            (json_value (VNum x)) (json_value (VNum y)))
    with (json_rack (Rack.mk (Rack.id (snd (upsert code x y (default [] (racks db)))))
                       code (VNum x) (VNum y))).
  rewrite <- Hu. apply json_rack_in_saved.
Qed.

Lemma upsert_then_map_witness :
  exists id racks1,
    fst (post_api_admin_rack body_B02 (world_of db_sample))
      = Done (RackSaved "Rack B02 berhasil disimpan"
                (Rack.mk id "B02" (VNum (num 5)) (VNum (num 5))))
    /\ fst (get_api_map (snd (post_api_admin_rack body_B02 (world_of db_sample))))
      = Done (MapOk "PT Granitoguna Building Ceramics" "Gudang Sparepart"
                "/maps/warehouse.svg" racks1)
    /\ Rack.mk id "B02" (json_value (VNum (num 5))) (json_value (VNum (num 5))) ∈ racks1.
Proof.
  refine (upsert_then_map body_B02 (world_of db_sample) "B02" db_sample
            eq_refl _ eq_refl eq_refl eq_refl eq_refl).
  discriminate.
Defined.

(** X15. Placing a rack makes its items locatable: an item that points to
    ["R-" + code] is shown with ["-"] and no coordinates while no rack
    has that id, and with the code and the coordinates of the new rack
    once the upsert of [code] has created it. *)
Theorem upsert_then_search
    (body : Body) (w : World) (s : string) (db : Dataset)
    (query_q : value) (sq : string) (it : Item.t) :
  trimmed (body_code body) = Done s ->
  let code := toUpperCase s in
  let x := Number (body_x body) in
  let y := Number (body_y body) in
  let rs := default [] (racks db) in
  code <> EmptyString -> isNaN x = false -> isNaN y = false ->
  disk w = Some db -> writable w = true ->
  Forall (fun r => Rack.code r <> code) rs ->
  Forall (fun r => Rack.id r <> ("R-" ++ code)%string) rs ->
  trimmed query_q = Done sq ->
  toLowerCase sq <> EmptyString ->
  it ∈ default [] (items db) ->
  Matches (toLowerCase sq) it ->
  Item.rackId it = Some ("R-" ++ code)%string ->
  let w1 := snd (post_api_admin_rack body w) in
  exists before after,
    fst (get_api_search query_q w)
      = Done (SearchOk (toLowerCase sq) (length before) before)
    /\ mkResult (Item.id it) (Item.name it) (Item.code it) (Item.rackId it)
         "-" VNull VNull ∈ before
    /\ fst (get_api_search query_q w1)
      = Done (SearchOk (toLowerCase sq) (length after) after)
    /\ mkResult (Item.id it) (Item.name it) (Item.code it) (Item.rackId it)
         code (json_value (VNum x)) (json_value (VNum y)) ∈ after.
Proof.
  intros Hcode code x y rs Hc Hx Hy Hdisk Hw Hnocode Hnoid Hq Hne Hin Hm Hrack w1.
  pose proof (post_api_admin_rack_saved body w s db Hcode Hc Hx Hy Hdisk Hw) as H.
  fold code x y rs in H. rewrite (upsert_new code x y rs Hnocode) in H. cbn [fst snd] in H.
  set (new := Rack.mk ("R-" ++ code) code (VNum x) (VNum y)) in *.
  set (db1 := json_dataset (set_racks (rs ++ [new]) db)).
  assert (Hd1 : disk w1 = Some db1) by (unfold w1; rewrite H; reflexivity).
  exists (search_results (toLowerCase sq) db), (search_results (toLowerCase sq) db1).
  rewrite (get_api_search_run _ _ _ _ Hq Hne Hdisk).
  rewrite (get_api_search_run _ _ _ _ Hq Hne Hd1). cbn [fst].
  split; [reflexivity|]. split; [|split; [reflexivity|]].
  - pose proof (search_results_member (toLowerCase sq) db it Hin Hm) as Hres.
    unfold to_result in Hres. fold rs in Hres.
    rewrite find_rack_none in Hres; [exact Hres|].
    intros r Hr E. rewrite Hrack in E. injection E as E.
    rewrite Forall_forall in Hnoid. exact (Hnoid r Hr E).
  - assert (Hin1 : it ∈ default [] (items db1)) by exact Hin.
    pose proof (search_results_member (toLowerCase sq) db1 it Hin1 Hm) as Hres.
    unfold to_result in Hres.
    assert (Hrs1 : default [] (racks db1) = json_rack <$> (rs ++ [new])) by reflexivity.
    rewrite Hrs1 in Hres.
    rewrite (find_rack_first _ _ (length rs) (json_rack new)) in Hres; [exact Hres| | |].
    + rewrite list_lookup_fmap, lookup_app_r by lia.
      rewrite Nat.sub_diag. reflexivity.
    + rewrite Hrack. reflexivity.
    + intros j r0 Hj Hlt E. rewrite list_lookup_fmap, lookup_app_l in Hj by exact Hlt.
      destruct (rs !! j) as [r1|] eqn:Hj1; [|discriminate].
      injection Hj as <-. rewrite Hrack in E. injection E as E.
      rewrite Forall_forall in Hnoid. apply (Hnoid r1); [|exact E].
      apply list_elem_of_lookup. eauto.
Qed.

Lemma upsert_then_search_witness :
  exists before after,
    fst (get_api_search (VStr "nut") (world_of db_dangling))
      = Done (SearchOk "nut" (length before) before)
    /\ mkResult "I2" (Some "Mur M6") (Some "NUT6") (Some "R-999") "-" VNull VNull ∈ before
    /\ fst (get_api_search (VStr "nut")
              (snd (post_api_admin_rack (mkBody (VStr "999") (VNum (num 7)) (VNum (num 8)))
                      (world_of db_dangling))))
      = Done (SearchOk "nut" (length after) after)
    /\ mkResult "I2" (Some "Mur M6") (Some "NUT6") (Some "R-999") "999"
         (json_value (VNum (num 7))) (json_value (VNum (num 8))) ∈ after.
Proof.
  refine (upsert_then_search (mkBody (VStr "999") (VNum (num 7)) (VNum (num 8)))
            (world_of db_dangling) "999" db_dangling (VStr "nut") "nut" item_dangling
            eq_refl _ eq_refl eq_refl eq_refl eq_refl _ _ eq_refl _ _ _ eq_refl).
  - discriminate.
  - apply Forall_cons. split; [discriminate | apply Forall_nil_2].
  - apply Forall_cons. split; [discriminate | apply Forall_nil_2].
  - discriminate.
  - apply list_elem_of_further, list_elem_of_here.
  - apply item_matches_spec. reflexivity.
Defined.

(** The racks left by an upsert of [c], met by a second upsert of [c]
    with other coordinates: the first rack with code [c], which is the
    one the first upsert answered, is moved; nothing is pushed. *)
Lemma upsert_after_upsert (c : string) (x y x2 y2 : number) (rs : list Rack.t) :
  let u := snd (upsert c x y rs) in
  let rs1 := json_rack <$> fst (upsert c x y rs) in
  let u2 := Rack.mk (Rack.id u) c (VNum x2) (VNum y2) in
  exists i,
    rs1 !! i = Some (json_rack u)
    /\ upsert c x2 y2 rs1 = (<[i := u2]> rs1, u2).
Proof.
  cbv zeta.
  destruct (upsert_first_match c x y rs) as (Hu & i & Hi & Hfirst). cbv zeta in Hu.
  set (u := snd (upsert c x y rs)) in *.
  set (rs0 := fst (upsert c x y rs)) in *.
  assert (Hcu : Rack.code u = c) by (rewrite Hu; reflexivity).
  assert (Hi1 : (json_rack <$> rs0) !! i = Some (json_rack u)).
  { rewrite list_lookup_fmap, Hi. reflexivity. }
  exists i. split; [exact Hi1|].
  rewrite (upsert_found c x2 y2 _ i (json_rack u) Hi1 Hcu).
  - cbn [json_rack Rack.id Rack.code]. rewrite Hcu. reflexivity.
  - intros j r0 Hj Hlt. rewrite list_lookup_fmap in Hj.
    destruct (rs0 !! j) as [r1|] eqn:E; [|discriminate].
    injection Hj as <-. exact (Hfirst j r1 E Hlt).
Qed.

(** X16. Two successful upserts whose codes normalise alike, with any
    coordinates: the second finds the rack the first one answered and
    moves it; it adds no rack and changes no code. *)
Theorem upsert_again_moves_rack
    (body1 body2 : Body) (w : World) (s1 s2 : string) (db : Dataset) :
  trimmed (body_code body1) = Done s1 ->
  trimmed (body_code body2) = Done s2 ->
  toUpperCase s1 = toUpperCase s2 ->
  toUpperCase s1 <> EmptyString ->
  isNaN (Number (body_x body1)) = false -> isNaN (Number (body_y body1)) = false ->
  isNaN (Number (body_x body2)) = false -> isNaN (Number (body_y body2)) = false ->
  disk w = Some db -> writable w = true ->
  let code := toUpperCase s1 in
  let w1 := snd (post_api_admin_rack body1 w) in
  let w2 := snd (post_api_admin_rack body2 w1) in
  exists rack1 db1 db2,
    fst (post_api_admin_rack body1 w) = Done (RackSaved (saved_message code) rack1)
    /\ disk w1 = Some db1
    /\ fst (post_api_admin_rack body2 w1)
       = Done (RackSaved (saved_message code)
                 (Rack.mk (Rack.id rack1) code
                    (VNum (Number (body_x body2))) (VNum (Number (body_y body2)))))
    /\ disk w2 = Some db2
    /\ length (default [] (racks db2)) = length (default [] (racks db1))
    /\ codes (default [] (racks db2)) = codes (default [] (racks db1))
    /\ Rack.mk (Rack.id rack1) code
         (json_value (VNum (Number (body_x body2))))
         (json_value (VNum (Number (body_y body2)))) ∈ default [] (racks db2).
Proof.
  intros Hc1 Hc2 Hsame Hne Hx1 Hy1 Hx2 Hy2 Hdisk Hw code w1 w2.
  pose proof (post_api_admin_rack_saved body1 w s1 db Hc1 Hne Hx1 Hy1 Hdisk Hw) as H1.
  fold code in H1.
  set (rs := default [] (racks db)) in *.
  set (x1 := Number (body_x body1)) in *. set (y1 := Number (body_y body1)) in *.
  set (x2 := Number (body_x body2)) in *. set (y2 := Number (body_y body2)) in *.
  set (db1 := json_dataset (set_racks (fst (upsert code x1 y1 rs)) db)) in *.
  assert (Hd1 : disk w1 = Some db1) by (unfold w1; rewrite H1; reflexivity).
  assert (Hw1 : writable w1 = true) by (unfold w1; rewrite H1; exact Hw).
  assert (Hne2 : toUpperCase s2 <> EmptyString) by congruence.
  pose proof (post_api_admin_rack_saved body2 w1 s2 db1 Hc2 Hne2 Hx2 Hy2 Hd1 Hw1) as H2.
  rewrite <- Hsame in H2. fold code x2 y2 in H2.
  assert (Hrs1 : default [] (racks db1) = json_rack <$> fst (upsert code x1 y1 rs))
    by reflexivity.
  rewrite Hrs1 in H2.
  destruct (upsert_after_upsert code x1 y1 x2 y2 rs) as (i & Hi & Hup). cbv zeta in Hup.
  rewrite Hup in H2. cbn [fst snd] in H2.
  set (u2 := Rack.mk (Rack.id (snd (upsert code x1 y1 rs))) code (VNum x2) (VNum y2)) in *.
  exists (snd (upsert code x1 y1 rs)), db1,
    (json_dataset (set_racks (<[i := u2]> (json_rack <$> fst (upsert code x1 y1 rs))) db1)).
  split; [rewrite H1; reflexivity|]. split; [exact Hd1|].
  split; [rewrite H2; reflexivity|].
  split; [unfold w2; rewrite H2; reflexivity|].
  rewrite json_dataset_set_racks, Hrs1. cbn [racks default from_option id].
  split; [|split].
  - rewrite !length_fmap, length_insert, length_fmap. reflexivity.
  - rewrite codes_json. unfold codes. rewrite list_fmap_insert.
    apply list_insert_id. rewrite list_lookup_fmap, Hi. cbn.
    f_equal. destruct (upsert_first_match code x1 y1 rs) as (Hu & _).
    cbv zeta in Hu. rewrite Hu. reflexivity.
  - change (Rack.mk (Rack.id (snd (upsert code x1 y1 rs))) code
              (json_value (VNum x2)) (json_value (VNum y2))) with (json_rack u2).
    apply list_elem_of_fmap_2, list_elem_of_lookup. exists i.
    apply list_lookup_insert_eq. eapply lookup_lt_Some. exact Hi.
Qed.

Lemma upsert_again_moves_rack_witness :
  exists rack1 db1 db2,
    fst (post_api_admin_rack body_B02 (world_of db_sample))
      = Done (RackSaved "Rack B02 berhasil disimpan" rack1)
    /\ disk (snd (post_api_admin_rack body_B02 (world_of db_sample))) = Some db1
    /\ fst (post_api_admin_rack (mkBody (VStr " b02") (VStr "7") (VStr "8.5"))
              (snd (post_api_admin_rack body_B02 (world_of db_sample))))
       = Done (RackSaved "Rack B02 berhasil disimpan"
                 (Rack.mk (Rack.id rack1) "B02"
                    (VNum (Number (VStr "7"))) (VNum (Number (VStr "8.5")))))
    /\ disk (snd (post_api_admin_rack (mkBody (VStr " b02") (VStr "7") (VStr "8.5"))
                    (snd (post_api_admin_rack body_B02 (world_of db_sample))))) = Some db2
    /\ length (default [] (racks db2)) = length (default [] (racks db1))
    /\ codes (default [] (racks db2)) = codes (default [] (racks db1))
    /\ Rack.mk (Rack.id rack1) "B02"
         (json_value (VNum (Number (VStr "7"))))
         (json_value (VNum (Number (VStr "8.5")))) ∈ default [] (racks db2).
Proof.
  refine (upsert_again_moves_rack body_B02 (mkBody (VStr " b02") (VStr "7") (VStr "8.5"))
            (world_of db_sample) "B02" "b02" db_sample
            eq_refl eq_refl eq_refl _ eq_refl eq_refl eq_refl eq_refl eq_refl eq_refl).
  discriminate.
Defined.

(** ** Coordinates that are not numbers *)

(** The values [Number] turns into zero without complaint: [null],
    [false] and a text that is empty or white space only. *)
Inductive zeroish : value -> Prop :=
  | zeroish_null : zeroish VNull
  | zeroish_false : zeroish (VBool false)
  | zeroish_blank (t : string) : blank t = true -> zeroish (VStr t).

Lemma Number_zeroish (v : value) : zeroish v -> Number v = S754_zero false.
Proof.
  intros [| | t Ht]; [reflexivity | reflexivity |].
  unfold Number, StringToNumber, trim.
  rewrite (trimStart_blank t Ht). reflexivity.
Qed.

(** X17. A coordinate that is [null], [false] or a blank text is not
    refused: whatever the other coordinate is, as long as that one
    passes, the upsert goes through and the rack is stored with zero
    in the place of the [null], [false] or blank coordinate. *)
Theorem upsert_null_coordinate_is_zero
    (body : Body) (w : World) (s : string) (db : Dataset) :
  trimmed (body_code body) = Done s ->
  toUpperCase s <> EmptyString ->
  disk w = Some db -> writable w = true ->
  let code := toUpperCase s in
  let zero := VNum (S754_zero false) in
  (zeroish (body_x body) -> isNaN (Number (body_y body)) = false ->
     exists id db1,
       fst (post_api_admin_rack body w)
         = Done (RackSaved (saved_message code)
                   (Rack.mk id code zero (VNum (Number (body_y body)))))
       /\ disk (snd (post_api_admin_rack body w)) = Some db1
       /\ Rack.mk id code zero (json_value (VNum (Number (body_y body))))
          ∈ default [] (racks db1))
  /\ (zeroish (body_y body) -> isNaN (Number (body_x body)) = false ->
     exists id db1,
       fst (post_api_admin_rack body w)
         = Done (RackSaved (saved_message code)
                   (Rack.mk id code (VNum (Number (body_x body))) zero))
       /\ disk (snd (post_api_admin_rack body w)) = Some db1
       /\ Rack.mk id code (json_value (VNum (Number (body_x body)))) zero
          ∈ default [] (racks db1)).
Proof.
  intros Hcode Hc Hdisk Hw code zero.
  assert (Hrun : forall x y,
            Number (body_x body) = x -> Number (body_y body) = y ->
            isNaN x = false -> isNaN y = false ->
            exists id db1,
              fst (post_api_admin_rack body w)
                = Done (RackSaved (saved_message code) (Rack.mk id code (VNum x) (VNum y)))
              /\ disk (snd (post_api_admin_rack body w)) = Some db1
              /\ Rack.mk id code (json_value (VNum x)) (json_value (VNum y))
                 ∈ default [] (racks db1)).
  { intros x y Ex Ey Hx Hy. rewrite <- Ex in Hx. rewrite <- Ey in Hy.
    pose proof (post_api_admin_rack_saved body w s db Hcode Hc Hx Hy Hdisk Hw) as H.
    rewrite Ex, Ey in H. fold code in H. rewrite H. cbn [fst snd write disk].
    destruct (upsert_first_match code x y (default [] (racks db))) as (Hu & _).
    cbv zeta in Hu.
    exists (Rack.id (snd (upsert code x y (default [] (racks db))))).
    eexists. rewrite <- Hu. split; [reflexivity|]. split; [reflexivity|].
    rewrite json_dataset_set_racks. cbn [racks default from_option id].
    pose proof (json_rack_in_saved code x y (default [] (racks db))) as Hin.
    assert (E : json_rack (snd (upsert code x y (default [] (racks db))))
                = Rack.mk (Rack.id (snd (upsert code x y (default [] (racks db)))))
                    code (json_value (VNum x)) (json_value (VNum y))).
    { rewrite Hu. reflexivity. }
    rewrite E in Hin. exact Hin. }
  split.
  - intros Zx Hy.
    exact (Hrun _ _ (Number_zeroish _ Zx) eq_refl eq_refl Hy).
  - intros Zy Hx.
    exact (Hrun _ _ eq_refl (Number_zeroish _ Zy) Hx eq_refl).
Qed.

(** [{code: "c03", x: null, y: 5}]: stored at (0, 5). *)
Lemma upsert_null_coordinate_is_zero_witness :
  exists id db1,
    fst (post_api_admin_rack (mkBody (VStr "c03") VNull (VNum (num 5))) (world_of db_sample))
      = Done (RackSaved "Rack C03 berhasil disimpan"
                (Rack.mk id "C03" (VNum (S754_zero false)) (VNum (num 5))))
    /\ disk (snd (post_api_admin_rack (mkBody (VStr "c03") VNull (VNum (num 5)))
                    (world_of db_sample))) = Some db1
    /\ Rack.mk id "C03" (VNum (S754_zero false)) (json_value (VNum (num 5)))
       ∈ default [] (racks db1).
Proof.
  refine (proj1 (upsert_null_coordinate_is_zero
                   (mkBody (VStr "c03") VNull (VNum (num 5)))
                   (world_of db_sample) "c03" db_sample eq_refl _ eq_refl eq_refl)
            zeroish_null eq_refl).
  discriminate.
Defined.

(** ** Search and map agree *)

Lemma find_rack_Some (rs : list Rack.t) (rackId : option string) (r : Rack.t) :
  find_rack rs rackId = Some r -> r ∈ rs /\ Some (Rack.id r) = rackId.
Proof.
  unfold find_rack. intros H.
  destruct (list_find _ rs) as [[i r0]|] eqn:E; [|discriminate].
  injection H as <-. apply list_find_Some in E as (Hi & Hr & _).
  split; [|exact Hr]. apply list_elem_of_lookup. eauto.
Qed.

Lemma find_rack_None (rs : list Rack.t) (rackId : option string) :
  find_rack rs rackId = None -> forall r, r ∈ rs -> Some (Rack.id r) <> rackId.
Proof.
  unfold find_rack. intros H r Hin.
  destruct (list_find _ rs) as [[i r0]|] eqn:E; [discriminate|].
  apply list_find_None in E. rewrite Forall_forall in E. exact (E r Hin).
Qed.

(** X18. What a search result says about a rack is what the map says: the
    code and coordinates of a result are those of a rack the map route
    lists under the item's [rackId], and a result shows ["-"] with
    [null] coordinates only when the map lists no rack with that id. *)
Theorem search_agrees_with_map
    (query_q : value) (s : string) (w : World) (db : Dataset) (res : Result) :
  trimmed query_q = Done s ->
  toLowerCase s <> EmptyString ->
  disk w = Some db ->
  exists results on_map,
    fst (get_api_search query_q w)
      = Done (SearchOk (toLowerCase s) (length results) results)
    /\ fst (get_api_map w)
      = Done (MapOk (company db) (warehouse db) "/maps/warehouse.svg" on_map)
    /\ (res ∈ results ->
        (exists r, r ∈ on_map
                   /\ Some (Rack.id r) = res_rackId res
                   /\ rackCode res = Rack.code r
                   /\ rackX res = Rack.x r /\ rackY res = Rack.y r)
        \/ (rackCode res = "-" /\ rackX res = VNull /\ rackY res = VNull
            /\ forall r, r ∈ on_map -> Some (Rack.id r) <> res_rackId res)).
Proof.
  intros Hq Hne Hdb.
  exists (search_results (toLowerCase s) db), (default [] (racks db)).
  split; [rewrite (get_api_search_run _ _ _ _ Hq Hne Hdb); reflexivity|].
  split; [unfold get_api_map, bind, loadDB, ret; rewrite Hdb; reflexivity|].
  intros Hres. unfold search_results in Hres.
  apply list_elem_of_fmap in Hres as (it & -> & _).
  unfold to_result. cbn [res_rackId rackCode rackX rackY].
  destruct (find_rack (default [] (racks db)) (Item.rackId it)) as [r|] eqn:E.
  - left. exists r. apply find_rack_Some in E as [Hin Hid]. auto.
  - right. repeat split. apply find_rack_None, E.
Qed.

Lemma search_agrees_with_map_witness :
  exists results on_map,
    fst (get_api_search (VStr "m6") (world_of db_dangling))
      = Done (SearchOk "m6" (length results) results)
    /\ fst (get_api_map (world_of db_dangling))
      = Done (MapOk "PT Granitoguna Building Ceramics" "Gudang Sparepart"
                "/maps/warehouse.svg" on_map)
    /\ (mkResult "I2" (Some "Mur M6") (Some "NUT6") (Some "R-999") "-" VNull VNull
        ∈ results ->
        (exists r, r ∈ on_map /\ Some (Rack.id r) = Some "R-999"
                   /\ "-" = Rack.code r /\ VNull = Rack.x r /\ VNull = Rack.y r)
        \/ ("-" = "-" /\ VNull = VNull /\ VNull = VNull
            /\ forall r, r ∈ on_map -> Some (Rack.id r) <> Some "R-999")).
Proof.
  refine (search_agrees_with_map (VStr "m6") "m6" (world_of db_dangling) db_dangling
            (mkResult "I2" (Some "Mur M6") (Some "NUT6") (Some "R-999") "-" VNull VNull)
            eq_refl _ eq_refl).
  discriminate.
Defined.
